(** * EV route and charging-station booking: the deterministic core of holistic.py

    A shallow embedding of the helper functions of [holistic.py]
    ([haversine], [is_time_overlap], [get_bookings_for_charger],
    [filter_available_chargers], [create_booking], [draw_route] and the
    station loop of [main]) together with the properties the specification
    states about them.

    Conventions of the embedding.
    - Python floats that are data (coordinates, hours, prices) are the
      rationals they denote ([Q]) and arithmetic on them is exact; the
      trigonometry of [haversine] is taken over the real numbers.
    - A [datetime] is the number of microseconds since 1900-01-01 00:00:00,
      the date [strptime] fills in for a time-only format; a [timedelta] is a
      number of microseconds.  Both are [Z].
    - A time-of-day string accepted by [strptime] is the number of seconds
      since midnight it denotes; a string it rejects has no counterpart.
    - The Supabase client is the table of bookings it serves, with the
      queries that fail.
    - The folium map is the list of its layers; [draw_route] gives the map
      as it leaves it together with how the call ended.
    - An exception is a value of [exn]; code that can raise returns an
      [outcome]. *)

From Stdlib Require Import ZArith QArith Qround Qabs List String Bool Lia.
From Stdlib Require Import Reals Qreals Lra.
Import ListNotations.

(** ** Exceptions *)

Inductive exn : Type :=
| ValueError
| ZeroDivisionError
| OverflowError
| APIError.

Inductive outcome (A : Type) : Type :=
| Returns (a : A)
| Raises (e : exn).

Arguments Returns {A} a.
Arguments Raises {A} e.

Definition bind {A B : Type} (m : outcome A) (k : A -> outcome B) : outcome B :=
  match m with
  | Returns a => k a
  | Raises e => Raises e
  end.

Notation "x <- m ;; k" := (bind m (fun x => k))
  (at level 61, m at next level, right associativity).

(** ** Time windows *)

(** [datetime.strptime(s, "%H:%M")] and [datetime.strptime(s, "%H:%M:%S")]:
    the datetime of a time of day on 1900-01-01.  The inputs are the strings
    that match the format; on any other string [strptime] raises ValueError,
    which is not modelled. *)
Definition strptime (seconds_since_midnight : Z) : Z :=
  (seconds_since_midnight * 1000000)%Z.

(** The time of day written ["HH:MM"] and ["HH:MM:SS"]. *)
Definition HM (h m : Z) : Z := (h * 3600 + m * 60)%Z.
Definition HMS (h m s : Z) : Z := (h * 3600 + m * 60 + s)%Z.

(** Rounding to the nearest integer, ties to even, as [timedelta] rounds to
    whole microseconds. *)
Definition round_half_even (x : Q) : Z :=
  let f := Qfloor x in
  match ((x - inject_Z f) ?= (1 # 2))%Q with
  | Lt => f
  | Gt => (f + 1)%Z
  | Eq => if Z.even f then f else (f + 1)%Z
  end.

(** [timedelta(hours=h)], in microseconds; the product with the
    microseconds of an hour is taken exactly. *)
Definition timedelta (hours : Q) : Z :=
  round_half_even (hours * inject_Z 3600000000)%Q.

(** The datetimes of the years 1 to 9999, relative to 1900-01-01, whose
    proleptic ordinal is 693596; the last day has ordinal 3652059. *)
Definition datetime_min : Z := (- 693595 * 86400000000)%Z.
Definition datetime_max : Z := (2958464 * 86400000000 - 1)%Z.

(** [datetime + timedelta]: OverflowError outside the representable years. *)
Definition datetime_add (t delta : Z) : outcome Z :=
  if ((datetime_min <=? t + delta) && (t + delta <=? datetime_max))%Z
  then Returns (t + delta)%Z
  else Raises OverflowError.

Definition is_time_overlap (start1 end1 start2 end2 : Z) : bool :=
  ((start1 <? end2) && (end1 >? start2))%Z.

(** ** The booking store *)

(** A row of table ["bookings"]. *)
Module Booking.
Record t : Type := Build {
  user_id : string;
  station_id : Z;
  charger_id : Z;
  date : string;
  start_time : Z;
  duration_hours : Q;
  energy_kwh : Q;
  price : Q;
  status : string;
  payment_status : string
}.
End Booking.

(** A row of table ["chargers"]. *)
Module Charger.
Record t : Type := Build {
  id : Z;
  station_id : Z;
  charger_type : string;
  power_output : Q;
  price_per_kwh : Q
}.
End Charger.

(** A row of table ["stations"]. *)
Module Station.
Record t : Type := Build {
  id : Z;
  location : string;
  latitude : Q;
  longitude : Q
}.
End Station.

(** The Supabase client as the code sees it: the rows of ["bookings"], and
    the bookings queries (charger, date) whose [execute()] raises. *)
Record Supabase : Type := {
  bookings : list Booking.t;
  failing : Z -> string -> bool
}.

(** The two columns the query selects. *)
Definition selected (b : Booking.t) : Z * Q :=
  (Booking.start_time b, Booking.duration_hours b).

Definition get_bookings_for_charger (supabase : Supabase)
    (charger_id : Z) (date : string) : outcome (list (Z * Q)) :=
  if failing supabase charger_id date then Raises APIError
  else Returns
         (map selected
            (filter (fun b => (Booking.charger_id b =? charger_id)%Z
                              && String.eqb (Booking.date b) date)
                    (bookings supabase))).

(** ** Availability *)

(** Lines 42-43: the requested window. *)
Definition preferred_window (start_time_str : Z) (duration_hours : Q)
  : outcome (Z * Z) :=
  let preferred_start := strptime start_time_str in
  preferred_end <- datetime_add preferred_start (timedelta duration_hours) ;;
  Returns (preferred_start, preferred_end).

(** The inner loop over a charger's bookings: the final value of [free]. *)
Fixpoint scan_bookings (preferred_start preferred_end : Z)
    (bookings : list (Z * Q)) : outcome bool :=
  match bookings with
  | [] => Returns true
  | b :: rest =>
      let b_start := strptime (fst b) in
      b_end <- datetime_add b_start (timedelta (snd b)) ;;
      if is_time_overlap preferred_start preferred_end b_start b_end
      then Returns false
      else scan_bookings preferred_start preferred_end rest
  end.

(** The outer loop, threading the list [available]. *)
Fixpoint scan_chargers (supabase : Supabase) (date : string)
    (preferred_start preferred_end : Z)
    (available chargers : list Charger.t) : outcome (list Charger.t) :=
  match chargers with
  | [] => Returns available
  | c :: rest =>
      bookings <- get_bookings_for_charger supabase (Charger.id c) date ;;
      free <- scan_bookings preferred_start preferred_end bookings ;;
      scan_chargers supabase date preferred_start preferred_end
        (if free : bool then available ++ [c] else available) rest
  end.

Definition filter_available_chargers (supabase : Supabase)
    (chargers : list Charger.t) (date : string)
    (start_time_str : Z) (duration_hours : Q) : outcome (list Charger.t) :=
  w <- preferred_window start_time_str duration_hours ;;
  scan_chargers supabase date (fst w) (snd w) [] chargers.

(** ** Committing a booking *)

Definition create_booking (supabase : Supabase)
    (user_id : string) (station_id charger_id : Z) (date : string)
    (start_time : Z) (duration energy price : Q) : Supabase :=
  {| bookings :=
       bookings supabase ++
       [ {| Booking.user_id := user_id;
            Booking.station_id := station_id;
            Booking.charger_id := charger_id;
            Booking.date := date;
            Booking.start_time := start_time;
            Booking.duration_hours := duration;
            Booking.energy_kwh := energy;
            Booking.price := price;
            Booking.status := "confirmed";
            Booking.payment_status := "pending" |} ];
     failing := failing supabase |}.

(** ** Route segments *)

(** A route point or a zone breakpoint, [{'lat': .., 'lon': ..}]. *)
Record Coord : Type := { lat : Q; lon : Q }.

Inductive colour : Type := green | orange | red.

(** A [folium.PolyLine]; weight 5 and opacity 0.7 are the same for all. *)
Record PolyLine : Type := {
  locations : list (Q * Q);
  color : colour
}.

(** The map, as the layers added to it, oldest first. *)
Definition Map : Type := list PolyLine.

Definition add_to (layer : PolyLine) (m : Map) : Map := m ++ [layer].

(** [folium.PolyLine(locations, color=..)]: an empty list of locations is
    refused with ValueError. *)
Definition folium_PolyLine (points : list (Q * Q)) (c : colour)
  : outcome PolyLine :=
  match points with
  | [] => Raises ValueError
  | _ :: _ => Returns {| locations := points; color := c |}
  end.

(** [folium.PolyLine(..).add_to(m)]: the map afterwards and how the
    statement ended; a refused polyline leaves the map as it was. *)
Definition draw (points : list (Q * Q)) (c : colour) (m : Map)
  : Map * outcome unit :=
  match folium_PolyLine points c with
  | Returns layer => (add_to layer m, Returns tt)
  | Raises e => (m, Raises e)
  end.

(** One statement after another on the map: the second runs only when the
    first has not raised. *)
Definition and_then (first : Map * outcome unit)
    (next : Map -> Map * outcome unit) : Map * outcome unit :=
  match first with
  | (m, Returns _) => next m
  | (m, Raises e) => (m, Raises e)
  end.

Definition Qlt_bool (x y : Q) : bool := negb (Qle_bool y x).

(** The test of line 92. *)
Definition matches (p target : Coord) : bool :=
  Qlt_bool (Qabs (lat p - lat target)) (1 # 1000000)
  && Qlt_bool (Qabs (lon p - lon target)) (1 # 1000000).

(** The loop of [find_index] over [enumerate(coords)], from index [i]. *)
Fixpoint find_index_from (i : nat) (coords : list Coord) (target : Coord)
  : option nat :=
  match coords with
  | [] => None
  | p :: rest =>
      if matches p target then Some i
      else find_index_from (S i) rest target
  end.

(** An absent breakpoint ([None] or an empty dict) is [None]. *)
Definition find_index (coords : list Coord) (target : option Coord)
  : option nat :=
  match target with
  | None => None
  | Some t => find_index_from 0 coords t
  end.

(** [int(len(latlngs) * 0.3)], [* 0.6], [* 0.9]: tenths of the length,
    rounded down; the double product truncates to this for every length
    below 10^15. *)
Definition proportional (tenths : nat) {A : Type} (l : list A) : nat :=
  (List.length l * tenths / 10)%nat.

(** Lines 98-103: the fallback for a breakpoint supplied but not found. *)
Definition fallback {A : Type} (index : option nat) (coord : option Coord)
    (tenths : nat) (latlngs : list A) : option nat :=
  match index, coord with
  | None, Some _ => Some (proportional tenths latlngs)
  | _, _ => index
  end.

(** Python's [x or y] on indices: [None] and [0] are both false. *)
Definition or_else (x y : option nat) : option nat :=
  match x with
  | Some (S _) => x
  | _ => y
  end.

(** [x or 0]. *)
Definition or_zero (x : option nat) : nat :=
  match x with
  | Some n => n
  | None => 0%nat
  end.

(** The slice [l[start:stop]] for indices that are not negative. *)
Definition slice {A : Type} (start stop : nat) (l : list A) : list A :=
  skipn start (firstn stop l).

(** The map as [draw_route] leaves it, and how the call ended. *)
Definition draw_route (m : Map) (coords : list Coord)
    (green_coord orange_coord red_coord : option Coord)
  : Map * outcome unit :=
  let latlngs := map (fun p => (lat p, lon p)) coords in
  let gi := find_index coords green_coord in
  let oi := find_index coords orange_coord in
  let ri := find_index coords red_coord in
  let gi := fallback gi green_coord 3 latlngs in
  let oi := fallback oi orange_coord 6 latlngs in
  let ri := fallback ri red_coord 9 latlngs in
  and_then
    match gi with
    | Some g => draw (firstn (g + 1) latlngs) green m
    | None => (m, Returns tt)
    end
    (fun m =>
       and_then
         match oi with
         | Some o =>
             let start := or_zero gi in
             draw (slice start (o + 1) latlngs) orange m
         | None => (m, Returns tt)
         end
         (fun m =>
            let start := or_zero (or_else oi gi) in
            draw (skipn start latlngs) red m)).

(** ** Distances and nearby stations *)

Definition radians (x : R) : R := (x * PI / 180)%R.

(** [math.atan2] on the reals. *)
Definition atan2 (y x : R) : R :=
  if Rlt_dec 0 x then atan (y / x)
  else if Rlt_dec x 0 then
    if Rlt_dec y 0 then (atan (y / x) - PI)%R else (atan (y / x) + PI)%R
  else if Rlt_dec 0 y then (PI / 2)%R
  else if Rlt_dec y 0 then (- PI / 2)%R
  else 0%R.

(** [sqrt(a)] raises ValueError below zero and [1/a] raises
    ZeroDivisionError at zero; the arguments of [atan2] are evaluated in
    that order. *)
Definition haversine (lat1 lon1 lat2 lon2 : R) : outcome R :=
  let R := 6371%R in
  let dlat := radians (lat2 - lat1) in
  let dlon := radians (lon2 - lon1) in
  let a := (Rsqr (sin (dlat / 2))
            + cos (radians lat1) * cos (radians lat2)
              * Rsqr (sin (dlon / 2)))%R in
  if Rlt_dec a 0 then Raises ValueError
  else if Req_dec_T a 0 then Raises ZeroDivisionError
  else Returns (R * 2 * atan2 (sqrt a) (sqrt (1 / a)))%R.

(** Lines 191-193 of [main]: the loop over the stations. *)
Fixpoint scan_stations (rz : Coord) (nearby_stations stations : list Station.t)
  : outcome (list Station.t) :=
  match stations with
  | [] => Returns nearby_stations
  | s :: rest =>
      d <- haversine (Q2R (lat rz)) (Q2R (lon rz))
                     (Q2R (Station.latitude s)) (Q2R (Station.longitude s)) ;;
      scan_stations rz
        (if Rle_dec d 200 then nearby_stations ++ [s] else nearby_stations)
        rest
  end.

(** Lines 189-193 of [main]; an absent red zone is [None]. *)
Definition nearby_stations (rz : option Coord) (stations : list Station.t)
  : outcome (list Station.t) :=
  match rz with
  | None => Returns []
  | Some rz => scan_stations rz [] stations
  end.

(** ** The booking steps of [main] *)

(** Line 202: the chargers of the chosen station, out of [get_chargers()]. *)
Definition station_chargers (chargers : list Charger.t) (station : Station.t)
  : list Charger.t :=
  filter (fun c => (Charger.station_id c =? Station.id station)%Z) chargers.

(** Lines 202-203: the chargers offered for the station and the request. *)
Definition available_at_station (supabase : Supabase)
    (chargers : list Charger.t) (station : Station.t) (date : string)
    (start_time : Z) (duration : Q) : outcome (list Charger.t) :=
  filter_available_chargers supabase (station_chargers chargers station)
                            date start_time duration.

(** Lines 213-216: the price and the commit of the chosen charger. *)
Definition confirm_booking (supabase : Supabase) (user_id : string)
    (station : Station.t) (charger : Charger.t) (date : string)
    (start_time : Z) (duration energy : Q) : Supabase :=
  let price := (energy * Charger.price_per_kwh charger)%Q in
  create_booking supabase user_id (Station.id station) (Charger.id charger)
                 date start_time duration energy price.

(** ** Notions the properties are stated with *)

(** A datetime of the years 1 to 9999. *)
Definition representable (t : Z) : Prop :=
  (datetime_min <= t <= datetime_max)%Z.

(** The window [start, start + duration) of a stored booking. *)
Definition window (b : Z * Q) : Z * Z :=
  (strptime (fst b), (strptime (fst b) + timedelta (snd b))%Z).

(** The requested window meets the window of booking [b]. *)
Definition blocks (preferred_start preferred_end : Z) (b : Z * Q) : bool :=
  is_time_overlap preferred_start preferred_end
                  (fst (window b)) (snd (window b)).

(** The requested window meets none of the bookings. *)
Definition is_free (preferred_start preferred_end : Z)
    (bookings : list (Z * Q)) : bool :=
  forallb (fun b => negb (blocks preferred_start preferred_end b)) bookings.

(** The rows of a charger on a date, as the query of
    [get_bookings_for_charger] selects them. *)
Definition rows_of (rows : list Booking.t) (charger_id : Z) (date : string)
  : list Booking.t :=
  filter (fun b => (Booking.charger_id b =? charger_id)%Z
                   && String.eqb (Booking.date b) date) rows.

Definition confirmed (b : Booking.t) : bool :=
  String.eqb (Booking.status b) "confirmed".

(** Two rows book the same charger on the same date for windows that meet. *)
Definition clash (b1 b2 : Booking.t) : bool :=
  (Booking.charger_id b1 =? Booking.charger_id b2)%Z
  && String.eqb (Booking.date b1) (Booking.date b2)
  && is_time_overlap (fst (window (selected b1))) (snd (window (selected b1)))
                     (fst (window (selected b2))) (snd (window (selected b2))).

(** The invariant of the store: the confirmed bookings of a charger on a
    date have pairwise disjoint windows. *)
Definition no_double_booking (rows : list Booking.t) : Prop :=
  ForallOrdPairs
    (fun b1 b2 => confirmed b1 = true -> confirmed b2 = true ->
                  clash b1 b2 = false)
    rows.

(** What [main] does to book: the charger is taken from the result of
    [filter_available_chargers] and committed with the same date, start and
    duration, on the store as it then is. *)
Inductive booking_flow : Supabase -> Supabase -> Prop :=
| flow_done : forall supabase, booking_flow supabase supabase
| flow_book :
    forall supabase supabase' chargers available charger date start_time
           duration user_id station_id energy price,
      filter_available_chargers supabase chargers date start_time duration
        = Returns available ->
      In charger available ->
      booking_flow
        (create_booking supabase user_id station_id (Charger.id charger)
                        date start_time duration energy price)
        supabase' ->
      booking_flow supabase supabase'.

(** Joining polylines that share their boundary point: every polyline after
    the first gives up its first point. *)
Definition stitch {A : Type} (polylines : list (list A)) : list A :=
  match polylines with
  | [] => []
  | first :: rest => first ++ flat_map (@tl A) rest
  end.

(** A time of day, in seconds since midnight. *)
Definition time_of_day (t : Z) : Prop := (0 <= t < 86400)%Z.

(** A duration, in hours, that keeps the end of a window within the years 1
    to 9999 whatever the time of day it starts at. *)
Definition moderate (d : Q) : Prop :=
  (inject_Z (-16646280) <= d /\ d <= inject_Z 71003112)%Q.

(** The term [a] of [haversine]. *)
Definition haversine_term (lat1 lon1 lat2 lon2 : R) : R :=
  (Rsqr (sin (radians (lat2 - lat1) / 2))
   + cos (radians lat1) * cos (radians lat2)
     * Rsqr (sin (radians (lon2 - lon1) / 2)))%R.



(** The station is within 200 km of [rz], by the distance [haversine]
    computes. *)
Definition within_200 (rz : Coord) (s : Station.t) : bool :=
  match haversine (Q2R (lat rz)) (Q2R (lon rz))
                  (Q2R (Station.latitude s)) (Q2R (Station.longitude s)) with
  | Returns d => if Rle_dec d 200 then true else false
  | Raises _ => false
  end.

(** ** Scenarios *)

Module Scenario.

Definition day : string := "2025-06-01".

(** Chargers C1 and C2 of station 1. *)
Definition C1 : Charger.t := Charger.Build 1 1 "CCS" 50 (3 # 10).
Definition C2 : Charger.t := Charger.Build 2 1 "Type2" 22 (1 # 4).

Definition no_bookings : Supabase :=
  {| bookings := []; failing := fun _ _ => false |}.

(** C1 is booked from 10:00 to 12:00. *)
Definition morning : Supabase :=
  {| bookings :=
       [ Booking.Build "driver-a" 1 1 day (HMS 10 0 0) 2 20 6
                       "confirmed" "pending" ];
     failing := fun _ _ => false |}.

Definition existing (c : Charger.t) : list (Z * Q) :=
  if (Charger.id c =? 1)%Z then [ (HMS 10 0 0, 2%Q) ] else [].

(** The lookup of the bookings of C1 fails. *)
Definition flaky : Supabase :=
  {| bookings := [];
     failing := fun charger_id _ => (charger_id =? 1)%Z |}.

(** C2 committed at 11:00 for one hour, then again at 11:30. *)
Definition after_first : Supabase :=
  create_booking no_bookings "driver-a" 1 2 day (HM 11 0) 1 10 (5 # 2).
Definition after_second : Supabase :=
  create_booking after_first "driver-b" 1 2 day (HM 11 30) 1 10 (5 # 2).

(** Route points on a line. *)
Definition point (n : Z) : Coord := {| lat := inject_Z n; lon := inject_Z n |}.
Definition route10 : list Coord := map point [0; 1; 2; 3; 4; 5; 6; 7; 8; 9]%Z.
Definition route4 : list Coord := map point [0; 1; 2; 3]%Z.

(** A reference point on the equator, a station on it, one a thousandth
    of a degree east of it and one half way round the globe. *)
Definition origin : Coord := {| lat := 0; lon := 0 |}.
Definition station_here : Station.t := Station.Build 1 "here" 0 0.
Definition station_near : Station.t := Station.Build 2 "near" 0 (1 # 1000).
Definition station_far : Station.t := Station.Build 3 "far" 0 180.

(** The booking of C1 from 10:00 to 12:00, cancelled. *)
Definition cancelled : Supabase :=
  {| bookings :=
       [ Booking.Build "driver-a" 1 1 day (HMS 10 0 0) 2 20 6
                       "cancelled" "pending" ];
     failing := fun _ _ => false |}.

(** A booking that ends after the year 9999. *)
Definition endless : Z * Q := (HMS 13 0 0, inject_Z 1000000000).

(** Station 1, and a charger of another station. *)
Definition station1 : Station.t := Station.Build 1 "depot" (1 # 2) (1 # 3).
Definition C3 : Charger.t := Charger.Build 3 2 "CCS" 150 (2 # 5).

(** On top of [morning]: C1 again from 12:00 to 13:00, then C2 from 11:00 to
    12:00. *)
Definition after_noon : Supabase :=
  create_booking morning "driver-b" 1 1 day (HM 12 0) 1 10 3.
Definition after_noon_and_C2 : Supabase :=
  create_booking after_noon "driver-c" 1 2 day (HM 11 0) 1 10 (5 # 2).

End Scenario.

(** * Properties *)

(** ** Time windows *)

(** C7: two windows overlap exactly when each starts before the other ends,
    so windows that only touch ([w1.end = w2.start]) do not overlap. *)
Theorem is_time_overlap_spec :
  forall start1 end1 start2 end2 : Z,
    (is_time_overlap start1 end1 start2 end2 = true <->
     (start1 < end2 /\ end1 > start2)%Z) /\
    is_time_overlap start1 end1 end1 end2 = false.
Proof.
  intros start1 end1 start2 end2. unfold is_time_overlap. split.
  - rewrite andb_true_iff, Z.ltb_lt, Z.gtb_ltb, Z.ltb_lt. lia.
  - rewrite andb_false_iff, Z.gtb_ltb, Z.ltb_irrefl. now right.
Qed.

(** ** Availability *)

Lemma bind_returns :
  forall (A B : Type) (m : outcome A) (k : A -> outcome B) (b : B),
    bind m k = Returns b ->
    exists a, m = Returns a /\ k a = Returns b.
Proof.
  intros A B [a | e] k b H; simpl in H.
  - now exists a.
  - discriminate.
Qed.

Lemma datetime_add_representable :
  forall t delta : Z,
    representable (t + delta) ->
    datetime_add t delta = Returns (t + delta)%Z.
Proof.
  intros t delta [Hlo Hhi]. unfold datetime_add.
  apply Z.leb_le in Hlo. apply Z.leb_le in Hhi.
  now rewrite Hlo, Hhi.
Qed.

Lemma datetime_add_returns :
  forall t delta r : Z,
    datetime_add t delta = Returns r ->
    r = (t + delta)%Z /\ representable r.
Proof.
  intros t delta r. unfold datetime_add.
  destruct (_ && _)%bool eqn:E; [|discriminate].
  intros [= <-]. apply andb_true_iff in E as [Hlo Hhi].
  apply Z.leb_le in Hlo. apply Z.leb_le in Hhi.
  now split.
Qed.

(** The inner loop computes [is_free] when every booking it reads has a
    representable end. *)
Lemma scan_bookings_is_free :
  forall (preferred_start preferred_end : Z) (bookings : list (Z * Q)),
    Forall (fun b => representable (snd (window b))) bookings ->
    scan_bookings preferred_start preferred_end bookings
    = Returns (is_free preferred_start preferred_end bookings).
Proof.
  intros ps pe bookings Hrep.
  induction Hrep as [| b rest Hb _ IH]; simpl; [reflexivity|].
  unfold window in Hb; simpl in Hb.
  rewrite (datetime_add_representable _ _ Hb); simpl.
  unfold blocks, window; simpl.
  destruct (is_time_overlap ps pe _ _); simpl; [reflexivity | exact IH].
Qed.

(** When the inner loop says free, no booking meets the request. *)
Lemma scan_bookings_free :
  forall (preferred_start preferred_end : Z) (bookings : list (Z * Q)),
    scan_bookings preferred_start preferred_end bookings = Returns true ->
    is_free preferred_start preferred_end bookings = true.
Proof.
  intros ps pe bookings.
  induction bookings as [| b rest IH]; simpl; [reflexivity|].
  intros H. apply bind_returns in H as (b_end & Hadd & H).
  apply datetime_add_returns in Hadd as [-> _].
  unfold blocks, window; simpl.
  destruct (is_time_overlap ps pe _ _); simpl; [discriminate | now apply IH].
Qed.

(** The list [available] only grows at its end. *)
Lemma scan_chargers_available :
  forall supabase date preferred_start preferred_end chargers available,
    scan_chargers supabase date preferred_start preferred_end
                  available chargers
    = (found <- scan_chargers supabase date preferred_start preferred_end
                              [] chargers ;;
       Returns (available ++ found)).
Proof.
  intros supabase date ps pe chargers.
  induction chargers as [| c rest IH]; intros available; simpl.
  - now rewrite app_nil_r.
  - destruct (get_bookings_for_charger supabase (Charger.id c) date)
      as [bookings | e]; simpl; [|reflexivity].
    destruct (scan_bookings ps pe bookings) as [free | e]; simpl;
      [|reflexivity].
    rewrite IH. rewrite (IH (if free then [c] else [])).
    destruct (scan_chargers supabase date ps pe [] rest) as [found | e];
      simpl; [|reflexivity].
    destruct free; simpl; [now rewrite <- app_assoc | reflexivity].
Qed.

Lemma scan_chargers_filter :
  forall supabase date preferred_start preferred_end
         (existing : Charger.t -> list (Z * Q)) chargers,
    (forall c, In c chargers ->
               get_bookings_for_charger supabase (Charger.id c) date
               = Returns (existing c)) ->
    (forall c b, In c chargers -> In b (existing c) ->
                 representable (snd (window b))) ->
    scan_chargers supabase date preferred_start preferred_end [] chargers
    = Returns (filter (fun c => is_free preferred_start preferred_end
                                        (existing c)) chargers).
Proof.
  intros supabase date ps pe existing chargers.
  induction chargers as [| c rest IH]; intros Hget Hrep; simpl;
    [reflexivity|].
  rewrite (Hget c (or_introl eq_refl)); simpl.
  rewrite scan_bookings_is_free
    by (apply Forall_forall; intros b Hb;
        exact (Hrep c b (or_introl eq_refl) Hb)).
  simpl. rewrite scan_chargers_available.
  rewrite IH; simpl.
  - now destruct (is_free ps pe (existing c)).
  - intros c' Hc'. apply Hget. now right.
  - intros c' b Hc'. apply Hrep. now right.
Qed.

Lemma is_free_spec :
  forall preferred_start preferred_end bookings,
    is_free preferred_start preferred_end bookings = true <->
    (forall b, In b bookings ->
               is_time_overlap preferred_start preferred_end
                               (fst (window b)) (snd (window b)) = false).
Proof.
  intros ps pe bookings. unfold is_free. rewrite forallb_forall.
  split; intros H b Hb; specialize (H b Hb); unfold blocks in *.
  - now apply negb_true_iff in H.
  - now apply negb_true_iff.
Qed.

(** C2: with the bookings of each charger given by [existing], the filter
    keeps, in the order of the input, exactly the chargers whose bookings
    the requested window overlaps none of; no charger with an overlapping
    booking is returned. *)
Theorem filter_available_chargers_spec :
  forall supabase chargers date start_time duration
         (existing : Charger.t -> list (Z * Q))
         (preferred_start preferred_end : Z),
    preferred_window start_time duration
    = Returns (preferred_start, preferred_end) ->
    (forall c, In c chargers ->
               get_bookings_for_charger supabase (Charger.id c) date
               = Returns (existing c)) ->
    (forall c b, In c chargers -> In b (existing c) ->
                 representable (snd (window b))) ->
    exists available,
      filter_available_chargers supabase chargers date start_time duration
      = Returns available /\
      available
      = filter (fun c => is_free preferred_start preferred_end (existing c))
               chargers /\
      forall c,
        In c available <->
        In c chargers /\
        forall b, In b (existing c) ->
                  is_time_overlap preferred_start preferred_end
                                  (fst (window b)) (snd (window b)) = false.
Proof.
  intros supabase chargers date start_time duration existing ps pe
         Hwin Hget Hrep.
  eexists. split; [|split; [reflexivity|]].
  - unfold filter_available_chargers. rewrite Hwin; simpl.
    now apply scan_chargers_filter.
  - intros c. rewrite filter_In, is_free_spec. reflexivity.
Qed.

Lemma get_bookings_for_charger_failing :
  forall supabase charger_id date,
    failing supabase charger_id date = true ->
    get_bookings_for_charger supabase charger_id date = Raises APIError.
Proof.
  intros supabase charger_id date H. unfold get_bookings_for_charger.
  now rewrite H.
Qed.

Lemma get_bookings_for_charger_rows :
  forall supabase charger_id date found,
    get_bookings_for_charger supabase charger_id date = Returns found ->
    found = map selected (rows_of (bookings supabase) charger_id date).
Proof.
  intros supabase charger_id date found. unfold get_bookings_for_charger.
  destruct (failing supabase charger_id date); [discriminate|].
  now intros [= <-].
Qed.

(** A failing lookup stops the outer loop, whatever was found so far. *)
Lemma scan_chargers_raises :
  forall supabase date preferred_start preferred_end c chargers available,
    In c chargers ->
    failing supabase (Charger.id c) date = true ->
    exists e,
      scan_chargers supabase date preferred_start preferred_end
                    available chargers = Raises e.
Proof.
  intros supabase date ps pe c chargers.
  induction chargers as [| c0 rest IH]; intros available Hin Hfail;
    [contradiction|].
  simpl.
  destruct (get_bookings_for_charger supabase (Charger.id c0) date)
    as [bookings | e] eqn:Hget; simpl; [|now exists e].
  destruct (scan_bookings ps pe bookings) as [free | e]; simpl;
    [|now exists e].
  destruct Hin as [-> | Hin].
  - rewrite (get_bookings_for_charger_failing _ _ _ Hfail) in Hget.
    discriminate.
  - now apply IH.
Qed.

Lemma rows_of_representable :
  forall rows charger_id date,
    Forall (fun b => representable (snd (window (selected b)))) rows ->
    Forall (fun b => representable (snd (window b)))
           (map selected (rows_of rows charger_id date)).
Proof.
  intros rows charger_id date H. apply Forall_forall. intros b Hb.
  apply in_map_iff in Hb as (row & <- & Hrow).
  apply filter_In in Hrow as [Hrow _].
  rewrite Forall_forall in H. now apply H.
Qed.

Lemma scan_chargers_api_error :
  forall supabase date preferred_start preferred_end c chargers available,
    Forall (fun b => representable (snd (window (selected b))))
           (bookings supabase) ->
    In c chargers ->
    failing supabase (Charger.id c) date = true ->
    scan_chargers supabase date preferred_start preferred_end
                  available chargers = Raises APIError.
Proof.
  intros supabase date ps pe c chargers available Hrep.
  revert available.
  induction chargers as [| c0 rest IH]; intros available Hin Hfail;
    [contradiction|].
  simpl.
  destruct (get_bookings_for_charger supabase (Charger.id c0) date)
    as [found | e] eqn:Hget; simpl.
  - destruct Hin as [-> | Hin].
    + rewrite (get_bookings_for_charger_failing _ _ _ Hfail) in Hget.
      discriminate.
    + apply get_bookings_for_charger_rows in Hget as ->.
      rewrite scan_bookings_is_free by now apply rows_of_representable.
      simpl. now apply IH.
  - revert Hget. unfold get_bookings_for_charger.
    destruct (failing supabase (Charger.id c0) date); [|discriminate].
    now intros [= <-].
Qed.

(** C4 (as the code has it): a lookup that fails for one of the chargers
    makes the whole call of the filter fail, and no result is returned for
    the other chargers; when the requested window and the stored bookings
    are representable the exception is the lookup's own. *)
Theorem filter_available_chargers_lookup_failure :
  forall supabase chargers date start_time duration c,
    In c chargers ->
    failing supabase (Charger.id c) date = true ->
    (exists e,
        filter_available_chargers supabase chargers date start_time duration
        = Raises e) /\
    (representable (strptime start_time + timedelta duration) ->
     Forall (fun b => representable (snd (window (selected b))))
            (bookings supabase) ->
     filter_available_chargers supabase chargers date start_time duration
     = Raises APIError).
Proof.
  intros supabase chargers date start_time duration c Hin Hfail.
  unfold filter_available_chargers, preferred_window. split.
  - destruct (datetime_add (strptime start_time) (timedelta duration))
      as [preferred_end | e]; simpl; [|now exists e].
    now apply scan_chargers_raises with (c := c).
  - intros Hwin Hrows.
    rewrite (datetime_add_representable _ _ Hwin); simpl.
    now apply scan_chargers_api_error with (c := c).
Qed.

(** ** Constructing the requested window *)

(** C9 (as the code has it): the duration is not checked: for a start time
    that [strptime] accepts and a duration of any sign, the window ends at
    start + duration whenever that is a representable datetime. *)
Theorem preferred_window_any_duration :
  forall (start_time : Z) (duration : Q),
    representable (strptime start_time + timedelta duration) ->
    preferred_window start_time duration
    = Returns (strptime start_time,
               (strptime start_time + timedelta duration)%Z).
Proof.
  intros start_time duration H. unfold preferred_window.
  now rewrite (datetime_add_representable _ _ H).
Qed.

(** ** Committing after filtering *)

Lemma is_time_overlap_sym :
  forall start1 end1 start2 end2 : Z,
    is_time_overlap start1 end1 start2 end2
    = is_time_overlap start2 end2 start1 end1.
Proof.
  intros start1 end1 start2 end2. unfold is_time_overlap.
  rewrite !Z.gtb_ltb. apply andb_comm.
Qed.

(** A charger in the result of the outer loop was either already in
    [available] or is one of the scanned chargers with no booking that meets
    the request. *)
Lemma scan_chargers_sound :
  forall supabase date preferred_start preferred_end c chargers
         available result,
    scan_chargers supabase date preferred_start preferred_end
                  available chargers = Returns result ->
    In c result ->
    In c available \/
    (In c chargers /\
     is_free preferred_start preferred_end
             (map selected (rows_of (bookings supabase) (Charger.id c) date))
     = true).
Proof.
  intros supabase date ps pe c chargers.
  induction chargers as [| c0 rest IH]; intros available result Hscan Hin.
  - simpl in Hscan. injection Hscan as <-. now left.
  - simpl in Hscan.
    apply bind_returns in Hscan as (found & Hget & Hscan).
    apply bind_returns in Hscan as (free & Hfree & Hscan).
    apply get_bookings_for_charger_rows in Hget as ->.
    destruct (IH _ _ Hscan Hin) as [Hacc | [Hrest Hc]].
    + destruct free.
      * apply in_app_or in Hacc as [Hacc | [<- | []]]; [now left|].
        right. split; [now left|]. now apply scan_bookings_free.
      * now left.
    + right. split; [now right | exact Hc].
Qed.

Lemma filter_available_chargers_sound :
  forall supabase chargers date start_time duration available c,
    filter_available_chargers supabase chargers date start_time duration
    = Returns available ->
    In c available ->
    In c chargers /\
    is_free (strptime start_time)
            (strptime start_time + timedelta duration)
            (map selected (rows_of (bookings supabase) (Charger.id c) date))
    = true.
Proof.
  intros supabase chargers date start_time duration available c Hfilter Hin.
  unfold filter_available_chargers, preferred_window in Hfilter.
  apply bind_returns in Hfilter as (w & Hw & Hscan).
  apply bind_returns in Hw as (preferred_end & Hadd & Hw).
  injection Hw as <-. simpl in Hscan.
  apply datetime_add_returns in Hadd as [-> _].
  destruct (scan_chargers_sound _ _ _ _ c _ _ _ Hscan Hin)
    as [[] | H]; exact H.
Qed.

Lemma ForallOrdPairs_snoc :
  forall (A : Type) (R : A -> A -> Prop) (l : list A) (x : A),
    ForallOrdPairs R l ->
    Forall (fun y => R y x) l ->
    ForallOrdPairs R (l ++ [x]).
Proof.
  intros A R l x Hl. induction Hl as [| a l Ha Hl IH]; intros Hx; simpl.
  - constructor; constructor.
  - inversion Hx as [| ? ? Hax Hlx]; subst.
    constructor; [|now apply IH].
    apply Forall_app. split; [exact Ha | now constructor].
Qed.

(** One commit after a filter that returned the charger. *)
Lemma create_booking_after_filter :
  forall supabase chargers available charger date start_time duration
         user_id station_id energy price,
    no_double_booking (bookings supabase) ->
    filter_available_chargers supabase chargers date start_time duration
    = Returns available ->
    In charger available ->
    no_double_booking
      (bookings (create_booking supabase user_id station_id
                                (Charger.id charger) date start_time
                                duration energy price)).
Proof.
  intros supabase chargers available charger date start_time duration
         user_id station_id energy price Hinv Hfilter Hin.
  destruct (filter_available_chargers_sound _ _ _ _ _ _ _ Hfilter Hin)
    as [_ Hfree].
  unfold no_double_booking, create_booking; simpl.
  apply ForallOrdPairs_snoc; [exact Hinv|].
  apply Forall_forall. intros b Hb _ _.
  unfold clash; simpl.
  destruct (Booking.charger_id b =? Charger.id charger)%Z eqn:Hid;
    [|reflexivity].
  destruct (String.eqb (Booking.date b) date) eqn:Hdate; [|reflexivity].
  simpl. rewrite is_time_overlap_sym.
  rewrite is_free_spec in Hfree.
  apply (Hfree (selected b)).
  apply in_map. unfold rows_of. apply filter_In. split; [exact Hb|].
  now rewrite Hid, Hdate.
Qed.

(** C1 (as the code has it): [create_booking] checks nothing itself; the
    invariant that the confirmed bookings of a charger on a date are pairwise
    disjoint is kept by every sequence of commits each of which books a
    charger that [filter_available_chargers] has just returned for the same
    date, start and duration. *)
Theorem booking_flow_no_double_booking :
  forall supabase supabase',
    booking_flow supabase supabase' ->
    no_double_booking (bookings supabase) ->
    no_double_booking (bookings supabase').
Proof.
  intros supabase supabase' Hflow.
  induction Hflow as [| supabase supabase' chargers available charger date
                        start_time duration user_id station_id energy price
                        Hfilter Hin _ IH]; intros Hinv.
  - exact Hinv.
  - apply IH. now apply create_booking_after_filter with chargers available.
Qed.

(** ** Route segments *)

Lemma find_index_from_bounds :
  forall (coords : list Coord) (target : Coord) (i k : nat),
    find_index_from i coords target = Some k ->
    (i <= k < i + List.length coords)%nat.
Proof.
  induction coords as [| p rest IH]; intros target i k H; simpl in H;
    [discriminate|].
  destruct (matches p target).
  - injection H as <-. simpl. lia.
  - apply IH in H. simpl. lia.
Qed.

Lemma find_index_lt_length :
  forall (coords : list Coord) (target : Coord) (k : nat),
    find_index coords (Some target) = Some k ->
    (k < List.length coords)%nat.
Proof.
  intros coords target k H. apply find_index_from_bounds in H. lia.
Qed.

Lemma tl_skipn :
  forall (A : Type) (n : nat) (l : list A), tl (skipn n l) = skipn (S n) l.
Proof.
  intros A n. induction n as [| n IH]; intros [| a l]; try reflexivity.
  simpl. rewrite IH. now destruct l.
Qed.

(** Cutting a list at two indices in order and joining the three pieces,
    which share the points at the cuts, gives the list back. *)
Lemma stitch_three :
  forall (A : Type) (l : list A) (i j : nat),
    (i <= j)%nat ->
    stitch [firstn (i + 1) l; slice i (j + 1) l; skipn j l] = l.
Proof.
  intros A l i j Hij. unfold stitch, slice; simpl.
  rewrite app_nil_r, !tl_skipn.
  rewrite skipn_firstn_comm.
  replace (j + 1 - S i)%nat with (j - i)%nat by lia.
  replace (i + 1)%nat with (S i) by lia.
  rewrite <- (firstn_skipn (S i) l) at 4.
  f_equal.
  rewrite <- (firstn_skipn (j - i) (skipn (S i) l)) at 2.
  f_equal. rewrite skipn_skipn. f_equal. lia.
Qed.

Lemma draw_points :
  forall (p : Q * Q) (points : list (Q * Q)) (c : colour) (m : Map),
    draw (p :: points) c m
    = (m ++ [ {| locations := p :: points; color := c |} ], Returns tt).
Proof. reflexivity. Qed.

Lemma draw_nonempty :
  forall (points : list (Q * Q)) (c : colour) (m : Map),
    points <> [] ->
    draw points c m
    = (m ++ [ {| locations := points; color := c |} ], Returns tt).
Proof.
  intros [| p points] c m H; [contradiction | reflexivity].
Qed.

Lemma firstn_nonempty :
  forall (A : Type) (n : nat) (l : list A),
    l <> [] -> firstn (n + 1) l <> [].
Proof.
  intros A n [| a l] H; [contradiction|].
  rewrite Nat.add_1_r. discriminate.
Qed.

Lemma skipn_nonempty :
  forall (A : Type) (n : nat) (l : list A),
    (n < List.length l)%nat -> skipn n l <> [].
Proof.
  intros A n l H Hnil.
  apply (f_equal (@List.length A)) in Hnil.
  rewrite length_skipn in Hnil. simpl in Hnil. lia.
Qed.

Lemma slice_nonempty :
  forall (A : Type) (i j : nat) (l : list A),
    (i <= j)%nat -> (i < List.length l)%nat -> slice i (j + 1) l <> [].
Proof.
  intros A i j l Hij Hi. unfold slice. apply skipn_nonempty.
  rewrite length_firstn. lia.
Qed.

Lemma slice_empty :
  forall (A : Type) (i j : nat) (l : list A),
    (j < i)%nat -> slice i (j + 1) l = [].
Proof.
  intros A i j l Hji. unfold slice. apply skipn_all2.
  rewrite length_firstn. lia.
Qed.

Lemma nonempty_length :
  forall (A : Type) (l : list A), l <> [] -> (0 < List.length l)%nat.
Proof. intros A [| a l] H; [contradiction | simpl; lia]. Qed.

(** The index a supplied breakpoint resolves to, found or proportional, is
    an index of a route that has points. *)
Lemma fallback_lt_length :
  forall (coords : list Coord) (c : Coord) (tenths i : nat),
    coords <> [] ->
    (tenths < 10)%nat ->
    fallback (find_index coords (Some c)) (Some c) tenths
             (map (fun p => (lat p, lon p)) coords) = Some i ->
    (i < List.length coords)%nat.
Proof.
  intros coords c tenths i Hne Htenths H.
  destruct (find_index coords (Some c)) as [k |] eqn:Hk.
  - injection H as <-. now apply find_index_lt_length with c.
  - assert (Hi : i = proportional tenths
                                  (map (fun p => (lat p, lon p)) coords))
      by (unfold fallback in H; congruence).
    rewrite Hi. unfold proportional. rewrite length_map.
    apply nonempty_length in Hne.
    apply Nat.Div0.div_lt_upper_bound. nia.
Qed.

Section Resolved.

Variables (m : Map) (coords : list Coord).
Let latlngs := map (fun p => (lat p, lon p)) coords.

Lemma latlngs_length : List.length latlngs = List.length coords.
Proof. apply length_map. Qed.

(** Green and orange resolved in route order: three polylines. *)
Lemma draw_route_green_orange :
  forall (g o : Coord) (r : option Coord) (gi oi : nat),
    fallback (find_index coords (Some g)) (Some g) 3 latlngs = Some gi ->
    fallback (find_index coords (Some o)) (Some o) 6 latlngs = Some oi ->
    (gi <= oi)%nat ->
    (oi < List.length coords)%nat ->
    draw_route m coords (Some g) (Some o) r
    = (m ++ [ {| locations := firstn (gi + 1) latlngs; color := green |};
              {| locations := slice gi (oi + 1) latlngs; color := orange |};
              {| locations := skipn oi latlngs; color := red |} ],
       Returns tt).
Proof.
  intros g o r gi oi Hg Ho Hle Hlt.
  assert (Hne : latlngs <> []).
  { intros H. apply (f_equal (@List.length _)) in H.
    rewrite latlngs_length in H. simpl in H. lia. }
  unfold draw_route. fold latlngs. rewrite Hg, Ho.
  rewrite draw_nonempty by now apply firstn_nonempty.
  cbn [and_then or_zero].
  rewrite draw_nonempty
    by (apply slice_nonempty; [exact Hle | rewrite latlngs_length; lia]).
  cbn [and_then].
  replace (or_zero (or_else (Some oi) (Some gi))) with oi
    by (destruct oi; simpl; [lia | reflexivity]).
  rewrite draw_nonempty
    by (apply skipn_nonempty; rewrite latlngs_length; lia).
  now rewrite <- !app_assoc.
Qed.

(** Orange resolved before green: the orange slice is empty and the call
    ends there, with the green polyline on the map. *)
Lemma draw_route_orange_before_green :
  forall (g o : Coord) (r : option Coord) (gi oi : nat),
    fallback (find_index coords (Some g)) (Some g) 3 latlngs = Some gi ->
    fallback (find_index coords (Some o)) (Some o) 6 latlngs = Some oi ->
    (oi < gi)%nat ->
    coords <> [] ->
    draw_route m coords (Some g) (Some o) r
    = (m ++ [ {| locations := firstn (gi + 1) latlngs; color := green |} ],
       Raises ValueError).
Proof.
  intros g o r gi oi Hg Ho Hlt Hcoords.
  assert (Hne : latlngs <> []).
  { unfold latlngs. now destruct coords. }
  unfold draw_route. fold latlngs. rewrite Hg, Ho.
  rewrite draw_nonempty by now apply firstn_nonempty.
  cbn [and_then or_zero].
  now rewrite slice_empty.
Qed.

Lemma draw_route_green_only :
  forall (g : Coord) (r : option Coord) (gi : nat),
    fallback (find_index coords (Some g)) (Some g) 3 latlngs = Some gi ->
    (gi < List.length coords)%nat ->
    draw_route m coords (Some g) None r
    = (m ++ [ {| locations := firstn (gi + 1) latlngs; color := green |};
              {| locations := skipn gi latlngs; color := red |} ],
       Returns tt).
Proof.
  intros g r gi Hg Hlt.
  assert (Hne : latlngs <> []).
  { intros H. apply (f_equal (@List.length _)) in H.
    rewrite latlngs_length in H. simpl in H. lia. }
  unfold draw_route. fold latlngs. rewrite Hg.
  rewrite draw_nonempty by now apply firstn_nonempty.
  cbn [find_index fallback and_then].
  replace (or_zero (or_else None (Some gi))) with gi by reflexivity.
  rewrite draw_nonempty
    by (apply skipn_nonempty; rewrite latlngs_length; lia).
  now rewrite <- !app_assoc.
Qed.

Lemma draw_route_orange_only :
  forall (o : Coord) (r : option Coord) (oi : nat),
    fallback (find_index coords (Some o)) (Some o) 6 latlngs = Some oi ->
    (oi < List.length coords)%nat ->
    draw_route m coords None (Some o) r
    = (m ++ [ {| locations := slice 0 (oi + 1) latlngs; color := orange |};
              {| locations := skipn oi latlngs; color := red |} ],
       Returns tt).
Proof.
  intros o r oi Ho Hlt.
  unfold draw_route. fold latlngs. rewrite Ho.
  cbn [find_index fallback and_then or_zero].
  rewrite draw_nonempty
    by (apply slice_nonempty; [lia | rewrite latlngs_length; lia]).
  cbn [and_then].
  replace (or_zero (or_else (Some oi) None)) with oi by now destruct oi.
  rewrite draw_nonempty
    by (apply skipn_nonempty; rewrite latlngs_length; lia).
  now rewrite <- !app_assoc.
Qed.

Lemma draw_route_red_only :
  forall r : option Coord,
    coords <> [] ->
    draw_route m coords None None r
    = (m ++ [ {| locations := latlngs; color := red |} ], Returns tt).
Proof.
  intros r Hcoords.
  assert (Hne : latlngs <> []).
  { unfold latlngs. now destruct coords. }
  unfold draw_route. fold latlngs.
  cbn [find_index fallback and_then or_else or_zero skipn].
  now rewrite draw_nonempty.
Qed.

End Resolved.

(** C6: on a route of ten points with the green breakpoint matching index 3
    and no orange or red breakpoint, two polylines are drawn, green over
    indices 0 to 3 and red over indices 3 to 9; in general, on a route that
    has points, the polyline of an absent green or orange breakpoint is not
    drawn at all, and the next polyline starts at the last boundary that is
    defined, or at the start of the route. *)
Theorem draw_route_absent_breakpoints :
  forall (m : Map) (coords : list Coord) (g o : Coord) (r : option Coord),
    let latlngs := map (fun p => (lat p, lon p)) coords in
    (List.length coords = 10%nat ->
     find_index coords (Some g) = Some 3%nat ->
     draw_route [] coords (Some g) None None
     = ([ {| locations := slice 0 4 latlngs; color := green |};
          {| locations := slice 3 10 latlngs; color := red |} ],
        Returns tt)) /\
    (coords <> [] ->
     (forall gi,
         fallback (find_index coords (Some g)) (Some g) 3 latlngs = Some gi ->
         draw_route m coords (Some g) None r
         = (m ++ [ {| locations := firstn (gi + 1) latlngs; color := green |};
                   {| locations := skipn gi latlngs; color := red |} ],
            Returns tt)) /\
     (forall oi,
         fallback (find_index coords (Some o)) (Some o) 6 latlngs = Some oi ->
         draw_route m coords None (Some o) r
         = (m ++ [ {| locations := slice 0 (oi + 1) latlngs;
                      color := orange |};
                   {| locations := skipn oi latlngs; color := red |} ],
            Returns tt)) /\
     draw_route m coords None None r
     = (m ++ [ {| locations := latlngs; color := red |} ], Returns tt)).
Proof.
  intros m coords g o r latlngs. split.
  - intros Hlen Hg.
    assert (Hall : firstn 10 latlngs = latlngs).
    { apply firstn_all2. unfold latlngs. rewrite length_map. lia. }
    unfold slice. rewrite Hall.
    apply (draw_route_green_only [] coords g None 3).
    + now rewrite Hg.
    + lia.
  - intros Hcoords. split; [|split].
    + intros gi Hgi. apply draw_route_green_only; [exact Hgi|].
      apply (fallback_lt_length coords g 3 gi Hcoords); [lia | exact Hgi].
    + intros oi Hoi. apply draw_route_orange_only; [exact Hoi|].
      apply (fallback_lt_length coords o 6 oi Hcoords); [lia | exact Hoi].
    + now apply draw_route_red_only.
Qed.

(** C10 (as the code has it): when the orange breakpoint matches index 0
    and the green one a later index k, the orange slice [latlngs[k:1]] is
    empty: the call raises ValueError with only the green polyline on the
    map, and no red polyline is drawn.  The start written for the red
    polyline, [oi or gi or 0], does take an orange index of 0 for an absent
    one. *)
Theorem draw_route_orange_at_zero :
  forall (m : Map) (coords : list Coord) (g o : Coord) (r : option Coord)
         (k : nat),
    find_index coords (Some g) = Some k ->
    (0 < k)%nat ->
    find_index coords (Some o) = Some 0%nat ->
    let latlngs := map (fun p => (lat p, lon p)) coords in
    draw_route m coords (Some g) (Some o) r
    = (m ++ [ {| locations := firstn (k + 1) latlngs; color := green |} ],
       Raises ValueError) /\
    (forall gi, or_zero (or_else (Some 0%nat) gi) = or_zero (or_else None gi)).
Proof.
  intros m coords g o r k Hg Hk Ho latlngs. split; [|reflexivity].
  apply draw_route_orange_before_green with (o := o) (oi := 0%nat).
  - now rewrite Hg.
  - now rewrite Ho.
  - exact Hk.
  - intros ->. discriminate.
Qed.

(** C5 (as the code has it): when the three breakpoints are supplied and
    matched, and the green match does not come after the orange one, the
    green, orange and red polylines joined at their shared boundary points
    give the route back, point for point and in order; the red breakpoint
    only has to be there. *)
Theorem draw_route_reproduces_route :
  forall (coords : list Coord) (g o r : Coord) (gi oi ri : nat),
    find_index coords (Some g) = Some gi ->
    find_index coords (Some o) = Some oi ->
    find_index coords (Some r) = Some ri ->
    (gi <= oi)%nat ->
    let latlngs := map (fun p => (lat p, lon p)) coords in
    let G := firstn (gi + 1) latlngs in
    let O := slice gi (oi + 1) latlngs in
    let Rd := skipn oi latlngs in
    draw_route [] coords (Some g) (Some o) (Some r)
    = ([ {| locations := G; color := green |};
         {| locations := O; color := orange |};
         {| locations := Rd; color := red |} ],
       Returns tt) /\
    stitch [G; O; Rd] = latlngs /\
    (List.length G = (gi + 1)%nat /\ nth_error G gi = hd_error O) /\
    (List.length O = (oi - gi + 1)%nat /\
     nth_error O (oi - gi) = hd_error Rd).
Proof.
  intros coords g o r gi oi ri Hg Ho Hr Hle latlngs G O Rd.
  assert (Hoi : (oi < List.length coords)%nat)
    by now apply find_index_lt_length with o.
  assert (Hlen : (oi < List.length latlngs)%nat).
  { unfold latlngs. now rewrite length_map. }
  split; [|split; [|split]].
  - apply (draw_route_green_orange [] coords g o (Some r) gi oi);
      [now rewrite Hg | now rewrite Ho | exact Hle | exact Hoi].
  - now apply stitch_three.
  - unfold G, O, slice. split.
    + rewrite length_firstn. lia.
    + rewrite hd_error_skipn, !nth_error_firstn.
      replace (gi <? gi + 1)%nat with true by (symmetry; apply Nat.ltb_lt; lia).
      replace (gi <? oi + 1)%nat with true by (symmetry; apply Nat.ltb_lt; lia).
      reflexivity.
  - unfold O, Rd, slice. split.
    + rewrite length_skipn, length_firstn. lia.
    + rewrite hd_error_skipn, nth_error_skipn, nth_error_firstn.
      replace (gi + (oi - gi))%nat with oi by lia.
      replace (oi <? oi + 1)%nat with true by (symmetry; apply Nat.ltb_lt; lia).
      reflexivity.
Qed.

(** ** Distances and nearby stations *)

(** The haversine term of a point and itself is zero. *)
Lemma haversine_term_same_point :
  forall lat lon : R,
    (Rsqr (sin (radians (lat - lat) / 2))
     + cos (radians lat) * cos (radians lat)
       * Rsqr (sin (radians (lon - lon) / 2)))%R = 0%R.
Proof.
  intros lat lon. unfold radians.
  replace ((lat - lat) * PI / 180 / 2)%R with 0%R by field.
  replace ((lon - lon) * PI / 180 / 2)%R with 0%R by field.
  rewrite sin_0, Rsqr_0. ring.
Qed.

Lemma haversine_same_point_raises :
  forall lat lon : R,
    haversine lat lon lat lon = Raises ZeroDivisionError.
Proof.
  intros lat lon. unfold haversine.
  rewrite haversine_term_same_point.
  destruct (Rlt_dec 0 0) as [H | _]; [lra|].
  destruct (Req_dec_T 0 0) as [_ | H]; [reflexivity | contradiction].
Qed.

(** C3 (the code departs from it): on a point and itself [haversine] does
    not return 0; the term [a] is zero and [1/a] raises ZeroDivisionError. *)
Theorem haversine_same_point :
  forall lat lon : R,
    haversine lat lon lat lon = Raises ZeroDivisionError /\
    haversine lat lon lat lon <> Returns 0%R.
Proof.
  intros lat lon. rewrite haversine_same_point_raises.
  split; [reflexivity | discriminate].
Qed.

(** The list [nearby_stations] only grows at its end. *)
Lemma scan_stations_nearby :
  forall rz stations nearby,
    scan_stations rz nearby stations
    = (found <- scan_stations rz [] stations ;; Returns (nearby ++ found)).
Proof.
  intros rz stations. induction stations as [| s rest IH]; intros nearby;
    simpl.
  - now rewrite app_nil_r.
  - destruct (haversine _ _ _ _) as [d | e]; simpl; [|reflexivity].
    rewrite IH. rewrite (IH (if Rle_dec d 200 then [s] else [])).
    destruct (scan_stations rz [] rest) as [found | e]; simpl;
      [|reflexivity].
    destruct (Rle_dec d 200); simpl; [now rewrite <- app_assoc | reflexivity].
Qed.

Lemma within_200_spec :
  forall rz s,
    within_200 rz s = true <->
    exists d,
      haversine (Q2R (lat rz)) (Q2R (lon rz))
                (Q2R (Station.latitude s)) (Q2R (Station.longitude s))
      = Returns d /\ (d <= 200)%R.
Proof.
  intros rz s. unfold within_200.
  destruct (haversine _ _ _ _) as [d | e].
  - destruct (Rle_dec d 200) as [Hle | Hnle]; split.
    + intros _. now exists d.
    + reflexivity.
    + discriminate.
    + intros (d' & [= <-] & Hle). contradiction.
  - split; [discriminate | now intros (d & H & _)].
Qed.

(** C8 (as the code has it): when the distance of every station is
    computed, the stations returned are, in the order of the input, exactly
    those whose computed distance is at most 200, the bound written in the
    code, a distance of exactly 200 included. *)
Theorem nearby_stations_spec :
  forall (rz : Coord) (stations : list Station.t),
    Forall (fun s => exists d,
                haversine (Q2R (lat rz)) (Q2R (lon rz))
                          (Q2R (Station.latitude s))
                          (Q2R (Station.longitude s)) = Returns d)
           stations ->
    nearby_stations (Some rz) stations
    = Returns (filter (within_200 rz) stations) /\
    (forall s,
        In s (filter (within_200 rz) stations) <->
        In s stations /\
        exists d,
          haversine (Q2R (lat rz)) (Q2R (lon rz))
                    (Q2R (Station.latitude s)) (Q2R (Station.longitude s))
          = Returns d /\ (d <= 200)%R).
Proof.
  intros rz stations Hall. split.
  - unfold nearby_stations.
    induction Hall as [| s rest (d & Hd) _ IH]; simpl; [reflexivity|].
    rewrite Hd; simpl. rewrite scan_stations_nearby, IH; simpl.
    unfold within_200. rewrite Hd.
    now destruct (Rle_dec d 200).
  - intros s. rewrite filter_In, within_200_spec. reflexivity.
Qed.

(** * The properties on the scenarios *)

Import Scenario.

(** The filter returns C2 alone when C1 is booked from 10:00 to 12:00 and
    the request is 11:00 for one hour. *)
Lemma filter_available_chargers_spec_witness :
  exists available,
    filter_available_chargers morning [C1; C2] day (HM 11 0) 1
    = Returns available /\
    available
    = filter (fun c => is_free 39600000000 43200000000 (existing c))
             [C1; C2] /\
    forall c,
      In c available <->
      In c [C1; C2] /\
      forall b, In b (existing c) ->
                is_time_overlap 39600000000 43200000000
                                (fst (window b)) (snd (window b)) = false.
Proof.
  apply (filter_available_chargers_spec morning [C1; C2] day (HM 11 0) 1
           existing 39600000000 43200000000).
  - reflexivity.
  - intros c [<- | [<- | []]]; reflexivity.
  - intros c b [<- | [<- | []]] Hb; simpl in Hb.
    + destruct Hb as [<- | []]. split; vm_compute; discriminate.
    + contradiction.
Defined.

Example filter_available_chargers_morning :
  filter_available_chargers morning [C1; C2] day (HM 11 0) 1 = Returns [C2].
Proof. reflexivity. Qed.

(** When the lookup fails for C1 the call raises; C2 is not returned. *)
Lemma filter_available_chargers_lookup_failure_counterexample :
  In C1 [C1; C2] /\
  get_bookings_for_charger flaky (Charger.id C1) day = Raises APIError /\
  get_bookings_for_charger flaky (Charger.id C2) day = Returns [] /\
  filter_available_chargers flaky [C1; C2] day (HM 11 0) 1 = Raises APIError /\
  filter_available_chargers flaky [C1; C2] day (HM 11 0) 1 <> Returns [C2].
Proof.
  repeat split; try reflexivity; [now left | discriminate].
Qed.

Lemma filter_available_chargers_lookup_failure_witness :
  (exists e,
      filter_available_chargers flaky [C2; C1] day (HM 11 0) 1 = Raises e) /\
  (representable (strptime (HM 11 0) + timedelta 1) ->
   Forall (fun b => representable (snd (window (selected b))))
          (bookings flaky) ->
   filter_available_chargers flaky [C2; C1] day (HM 11 0) 1
   = Raises APIError).
Proof.
  apply (filter_available_chargers_lookup_failure
           flaky [C2; C1] day (HM 11 0) 1 C1).
  - right. now left.
  - reflexivity.
Defined.

(** A duration of zero and a negative duration give a window; nothing is
    raised, by the construction or by the filter. *)
Lemma preferred_window_nonpositive_duration :
  preferred_window (HM 12 0) 0 = Returns (43200000000, 43200000000)%Z /\
  preferred_window (HM 12 0) (-1) = Returns (43200000000, 39600000000)%Z /\
  filter_available_chargers morning [C1; C2] day (HM 12 0) 0
  = Returns [C1; C2] /\
  filter_available_chargers morning [C1; C2] day (HM 12 0) (-1)
  = Returns [C1; C2].
Proof. repeat split. Qed.

(** 11:00 with a duration of minus half an hour ends at 10:30. *)
Lemma preferred_window_any_duration_witness :
  preferred_window (HM 11 0) (- (1 # 2))
  = Returns (strptime (HM 11 0), strptime (HM 10 30)).
Proof.
  apply (preferred_window_any_duration (HM 11 0) (- (1 # 2))).
  split; vm_compute; discriminate.
Defined.

(** The second commit for C2, at 11:30 on top of 11:00 to 12:00, is stored
    like the first one, although the filter would not have returned C2, and
    the store then holds two overlapping confirmed bookings of C2. *)
Lemma create_booking_double_booking :
  no_double_booking (bookings no_bookings) /\
  filter_available_chargers no_bookings [C1; C2] day (HM 11 0) 1
  = Returns [C1; C2] /\
  is_time_overlap (strptime (HM 11 30)) (strptime (HM 11 30) + timedelta 1)
                  (strptime (HM 11 0)) (strptime (HM 11 0) + timedelta 1)
  = true /\
  filter_available_chargers after_first [C1; C2] day (HM 11 30) 1
  = Returns [C1] /\
  bookings after_second <> bookings after_first /\
  List.length (bookings after_second) = 2%nat /\
  ~ no_double_booking (bookings after_second).
Proof.
  split; [constructor|]. split; [reflexivity|]. split; [reflexivity|].
  split; [reflexivity|]. split; [discriminate|]. split; [reflexivity|].
  intros H. inversion H as [| b rest Hb _]; subst.
  inversion Hb as [| b' rest' Hclash _]; subst.
  specialize (Hclash eq_refl eq_refl). vm_compute in Hclash. discriminate.
Qed.

(** From [morning], where C1 is booked from 10:00 to 12:00: C1 is returned
    for 12:00 and booked until 13:00; then C2, not C1, is returned for 11:00
    and booked.  The three bookings, two of them of C1, are disjoint. *)
Lemma booking_flow_no_double_booking_witness :
  filter_available_chargers after_noon [C1; C2] day (HM 11 0) 1
  = Returns [C2] /\
  List.length (bookings after_noon_and_C2) = 3%nat /\
  no_double_booking (bookings after_noon_and_C2).
Proof.
  split; [reflexivity|]. split; [reflexivity|].
  apply (booking_flow_no_double_booking morning after_noon_and_C2).
  - apply flow_book with (chargers := [C1; C2]) (available := [C1; C2])
                         (charger := C1) (date := day) (start_time := HM 12 0)
                         (duration := 1%Q) (user_id := "driver-b"%string)
                         (station_id := 1%Z) (energy := 10%Q)
                         (price := 3%Q).
    + reflexivity.
    + now left.
    + apply flow_book with (chargers := [C1; C2]) (available := [C2])
                           (charger := C2) (date := day)
                           (start_time := HM 11 0) (duration := 1%Q)
                           (user_id := "driver-c"%string)
                           (station_id := 1%Z) (energy := 10%Q)
                           (price := (5 # 2)%Q).
      * reflexivity.
      * now left.
      * apply flow_done.
  - repeat constructor.
Defined.

(** Green at index 3 of ten points, no orange, no red. *)
Lemma draw_route_absent_breakpoints_witness :
  draw_route [] route10 (Some (point 3)) None None
  = ([ {| locations := slice 0 4 (map (fun p => (lat p, lon p)) route10);
          color := green |};
       {| locations := slice 3 10 (map (fun p => (lat p, lon p)) route10);
          color := red |} ],
     Returns tt).
Proof.
  apply (proj1 (draw_route_absent_breakpoints
                  [] route10 (point 3) (point 0) None));
    reflexivity.
Defined.

(** Orange at index 0 and green at index 4 of ten points: the green polyline
    is drawn and the call raises; there is no red polyline, and none that
    starts at index 4. *)
Lemma draw_route_orange_at_zero_counterexample :
  find_index route10 (Some (point 4)) = Some 4%nat /\
  find_index route10 (Some (point 0)) = Some 0%nat /\
  draw_route [] route10 (Some (point 4)) (Some (point 0)) (Some (point 9))
  = ([ {| locations := [(0, 0); (1, 1); (2, 2); (3, 3); (4, 4)]%Q;
          color := green |} ],
     Raises ValueError) /\
  ~ In {| locations := skipn 4 (map (fun p => (lat p, lon p)) route10);
          color := red |}
       (fst (draw_route [] route10 (Some (point 4)) (Some (point 0))
                        (Some (point 9)))) /\
  Forall (fun layer => color layer <> red)
         (fst (draw_route [] route10 (Some (point 4)) (Some (point 0))
                          (Some (point 9)))).
Proof.
  split; [reflexivity|]. split; [reflexivity|]. split; [reflexivity|].
  split.
  - intros [H | []]. discriminate.
  - repeat constructor. discriminate.
Qed.

Lemma draw_route_orange_at_zero_witness :
  draw_route [] route10 (Some (point 4)) (Some (point 0)) (Some (point 9))
  = ([ {| locations := firstn 5 (map (fun p => (lat p, lon p)) route10);
          color := green |} ],
     Raises ValueError).
Proof.
  apply (proj1 (draw_route_orange_at_zero
                  [] route10 (point 4) (point 0) (Some (point 9)) 4
                  eq_refl (Nat.lt_0_succ 3) eq_refl)).
Defined.

(** Green at 3, orange at 6 and red at 8 of ten points. *)
Lemma draw_route_reproduces_route_witness :
  snd (draw_route [] route10 (Some (point 3)) (Some (point 6))
                  (Some (point 8)))
  = Returns tt /\
  stitch (map locations
              (fst (draw_route [] route10 (Some (point 3)) (Some (point 6))
                               (Some (point 8)))))
  = map (fun p => (lat p, lon p)) route10.
Proof.
  destruct (draw_route_reproduces_route
              route10 (point 3) (point 6) (point 8) 3 6 8
              eq_refl eq_refl eq_refl) as (Hdraw & Hstitch & _).
  - repeat constructor.
  - rewrite Hdraw. split; [reflexivity | exact Hstitch].
Defined.

(** The three breakpoints match points of the route, the orange one before
    the green one: the orange slice is empty, the call raises with the green
    polyline alone on the map, and what was drawn is not the route. *)
Lemma draw_route_breakpoints_out_of_order :
  find_index route4 (Some (point 2)) = Some 2%nat /\
  find_index route4 (Some (point 1)) = Some 1%nat /\
  find_index route4 (Some (point 3)) = Some 3%nat /\
  draw_route [] route4 (Some (point 2)) (Some (point 1)) (Some (point 3))
  = ([ {| locations := [(0, 0); (1, 1); (2, 2)]%Q; color := green |} ],
     Raises ValueError) /\
  stitch (map locations
              (fst (draw_route [] route4 (Some (point 2)) (Some (point 1))
                               (Some (point 3)))))
  <> map (fun p => (lat p, lon p)) route4 /\
  List.concat (map locations
                   (fst (draw_route [] route4 (Some (point 2))
                                    (Some (point 1)) (Some (point 3)))))
  <> map (fun p => (lat p, lon p)) route4.
Proof.
  repeat split; try reflexivity; vm_compute; discriminate.
Qed.

(** ** Distances on the scenarios *)

Lemma Q2R_zero : Q2R 0 = 0%R.
Proof. unfold Q2R; simpl; lra. Qed.

(** Where the term [a] is positive the value returned is
    [R * 2 * atan a]: the quotient of [sqrt a] by [sqrt (1/a)] is [a]. *)
Lemma haversine_positive_term :
  forall lat1 lon1 lat2 lon2 : R,
    let a := (Rsqr (sin (radians (lat2 - lat1) / 2))
              + cos (radians lat1) * cos (radians lat2)
                * Rsqr (sin (radians (lon2 - lon1) / 2)))%R in
    (0 < a)%R ->
    haversine lat1 lon1 lat2 lon2 = Returns (6371 * 2 * atan a)%R.
Proof.
  intros lat1 lon1 lat2 lon2 a Ha. unfold haversine. fold a.
  destruct (Rlt_dec a 0) as [Hneg | _]; [lra|].
  destruct (Req_dec_T a 0) as [Hzero | _]; [lra|].
  pose proof (sqrt_lt_R0 a Ha) as Hsqrt.
  assert (Hinv : sqrt (1 / a) = (/ sqrt a)%R).
  { unfold Rdiv. now rewrite Rmult_1_l, sqrt_inv. }
  assert (Hpos : (0 < sqrt (1 / a))%R).
  { rewrite Hinv. now apply Rinv_0_lt_compat. }
  unfold atan2. destruct (Rlt_dec 0 (sqrt (1 / a))) as [_ | H]; [|lra].
  do 3 f_equal. rewrite Hinv. unfold Rdiv. rewrite Rinv_inv.
  apply sqrt_sqrt. lra.
Qed.

(** From the origin along the equator the term is the squared sine of half
    the difference of longitude. *)
Lemma haversine_term_equator :
  forall lon : R,
    (Rsqr (sin (radians (0 - 0) / 2))
     + cos (radians 0) * cos (radians 0)
       * Rsqr (sin (radians (lon - 0) / 2)))%R
    = Rsqr (sin (lon * PI / 360)).
Proof.
  intros lon. unfold radians.
  replace ((0 - 0) * PI / 180 / 2)%R with 0%R by field.
  replace (0 * PI / 180)%R with 0%R by field.
  replace ((lon - 0) * PI / 180 / 2)%R with (lon * PI / 360)%R by field.
  rewrite sin_0, cos_0, Rsqr_0. ring.
Qed.

Lemma haversine_station_far :
  haversine (Q2R (lat origin)) (Q2R (lon origin))
            (Q2R (Station.latitude station_far))
            (Q2R (Station.longitude station_far))
  = Returns (6371 * 2 * (PI / 4))%R.
Proof.
  simpl. rewrite Q2R_zero.
  replace (Q2R 180) with 180%R by (unfold Q2R; simpl; lra).
  assert (Ha : (Rsqr (sin (180 * PI / 360)) = 1)%R).
  { replace (180 * PI / 360)%R with (PI / 2)%R by field.
    rewrite sin_PI2. apply Rsqr_1. }
  rewrite haversine_positive_term; rewrite haversine_term_equator, Ha;
    [|lra].
  now rewrite atan_1.
Qed.

Lemma sin_hundredth : (9 / 1000 < sin (1 / 100))%R.
Proof.
  destruct (sin_bound (1 / 100) 0) as [H _];
    [lra | pose proof PI2_1; lra |].
  unfold sin_approx, sin_term, sum_f_R0 in H. simpl in H. lra.
Qed.

Lemma atan_small :
  forall a : R, (a < 9 / 1000)%R -> (atan a < 1 / 100)%R.
Proof.
  intros a Ha. pose proof PI2_1 as Hpi.
  rewrite <- (atan_tan (1 / 100)) by lra.
  apply atan_increasing.
  apply Rlt_le_trans with (1 := Ha).
  apply Rle_trans with (sin (1 / 100)); [left; exact sin_hundredth|].
  pose proof sin_hundredth as Hsin.
  assert (Hcos : (0 < cos (1 / 100))%R) by (apply cos_gt_0; lra).
  destruct (COS_bound (1 / 100)) as [_ Hcos1].
  unfold tan. revert Hsin Hcos Hcos1.
  generalize (sin (1 / 100)) (cos (1 / 100)). intros s c Hsin Hcos Hcos1.
  assert (Hinv : (1 <= / c)%R).
  { rewrite <- Rinv_1 at 1. apply Rinv_le_contravar; lra. }
  unfold Rdiv. rewrite <- (Rmult_1_r s) at 1.
  apply Rmult_le_compat_l; lra.
Qed.

Lemma haversine_station_near :
  exists d : R,
    haversine (Q2R (lat origin)) (Q2R (lon origin))
              (Q2R (Station.latitude station_near))
              (Q2R (Station.longitude station_near))
    = Returns d /\ (d <= 200)%R.
Proof.
  simpl. rewrite Q2R_zero.
  replace (Q2R (1 # 1000)) with (1 / 1000)%R by (unfold Q2R; simpl; lra).
  set (theta := (1 / 1000 * PI / 360)%R).
  pose proof PI_RGT_0 as Hpi0. pose proof PI_4 as Hpi4.
  assert (Htheta : (0 < theta < 1 / 80000)%R) by (unfold theta; lra).
  assert (Hpi : (theta < PI)%R) by (unfold theta; lra).
  assert (Hsin0 : (0 < sin theta)%R) by (apply sin_gt_0; lra).
  assert (Hsin1 : (sin theta < theta)%R) by (apply sin_lt_x; lra).
  assert (Ha : (0 < Rsqr (sin theta) < 9 / 1000)%R).
  { assert (Hs : (0 < sin theta < 1 / 80000)%R) by lra.
    revert Hs. generalize (sin theta). intros s Hs. unfold Rsqr.
    split; [now apply Rmult_lt_0_compat|].
    apply Rlt_trans with (1 * s)%R; [|lra].
    apply Rmult_lt_compat_r; lra. }
  eexists. split.
  - rewrite haversine_positive_term; rewrite haversine_term_equator;
      [reflexivity | exact (proj1 Ha)].
  - pose proof (atan_small _ (proj2 Ha)) as Hatan.
    change (6371 * 2 * atan (Rsqr (sin theta)) <= 200)%R. lra.
Qed.

Lemma within_200_station_near : within_200 origin station_near = true.
Proof. apply within_200_spec. exact haversine_station_near. Qed.

Lemma within_200_station_far : within_200 origin station_far = false.
Proof.
  unfold within_200. rewrite haversine_station_far.
  destruct (Rle_dec (6371 * 2 * (PI / 4)) 200) as [H | _]; [|reflexivity].
  pose proof PI2_1. lra.
Qed.

(** The near station is kept and the far one dropped. *)
Lemma nearby_stations_spec_witness :
  nearby_stations (Some origin) [station_near; station_far]
  = Returns (filter (within_200 origin) [station_near; station_far]) /\
  (forall s,
      In s (filter (within_200 origin) [station_near; station_far]) <->
      In s [station_near; station_far] /\
      exists d,
        haversine (Q2R (lat origin)) (Q2R (lon origin))
                  (Q2R (Station.latitude s)) (Q2R (Station.longitude s))
        = Returns d /\ (d <= 200)%R).
Proof.
  apply (nearby_stations_spec origin [station_near; station_far]).
  constructor; [|constructor; [|constructor]].
  - destruct haversine_station_near as (d & Hd & _). now exists d.
  - eexists. exact haversine_station_far.
Defined.

Example nearby_stations_near_far :
  nearby_stations (Some origin) [station_near; station_far]
  = Returns [station_near].
Proof.
  destruct haversine_station_near as (d & Hd & Hle).
  unfold nearby_stations, scan_stations.
  rewrite Hd, haversine_station_far. simpl.
  destruct (Rle_dec d 200) as [_ | H]; [|contradiction].
  destruct (Rle_dec (6371 * 2 * (PI / 4)) 200) as [H | _]; [|reflexivity].
  pose proof PI2_1. lra.
Qed.

(** The bound is the 200 of the code whatever radius is meant: the far
    station, within 20000 of the origin by the computed distance, is not
    returned.  And a station on the reference point makes the loop raise,
    so that the near station, within 200, is not returned either. *)
Lemma nearby_stations_counterexample :
  (exists d : R,
      haversine (Q2R (lat origin)) (Q2R (lon origin))
                (Q2R (Station.latitude station_far))
                (Q2R (Station.longitude station_far)) = Returns d /\
      (d <= 20000)%R /\
      nearby_stations (Some origin) [station_far] = Returns []) /\
  (exists d : R,
      haversine (Q2R (lat origin)) (Q2R (lon origin))
                (Q2R (Station.latitude station_near))
                (Q2R (Station.longitude station_near)) = Returns d /\
      (d <= 200)%R /\
      nearby_stations (Some origin) [station_near; station_here]
      = Raises ZeroDivisionError).
Proof.
  split.
  - exists (6371 * 2 * (PI / 4))%R. split; [exact haversine_station_far|].
    split; [pose proof PI_4; lra|].
    unfold nearby_stations, scan_stations.
    rewrite haversine_station_far. simpl.
    destruct (Rle_dec (6371 * 2 * (PI / 4)) 200) as [H | _]; [|reflexivity].
    pose proof PI2_1. lra.
  - destruct haversine_station_near as (d & Hd & Hle).
    exists d. split; [exact Hd|]. split; [exact Hle|].
    unfold nearby_stations, scan_stations. rewrite Hd. simpl.
    now rewrite Q2R_zero, haversine_same_point_raises.
Qed.

(** * Further properties of the code *)

(** ** Overlap *)

(** X1: the overlap test does not depend on the order of the two windows,
    and a window overlaps itself exactly when it ends after it starts. *)
Theorem is_time_overlap_symmetric_reflexive :
  forall start1 end1 start2 end2 : Z,
    is_time_overlap start1 end1 start2 end2
    = is_time_overlap start2 end2 start1 end1 /\
    (is_time_overlap start1 end1 start1 end1 = true <-> (start1 < end1)%Z).
Proof.
  intros start1 end1 start2 end2. split.
  - apply is_time_overlap_sym.
  - unfold is_time_overlap.
    rewrite andb_true_iff, Z.gtb_ltb, Z.ltb_lt. tauto.
Qed.

(** ** The store and the filter *)

Lemma rows_of_app :
  forall rows more charger_id date,
    rows_of (rows ++ more) charger_id date
    = rows_of rows charger_id date ++ rows_of more charger_id date.
Proof. intros. unfold rows_of. apply filter_app. Qed.

Lemma get_bookings_for_charger_unfold :
  forall supabase charger_id date,
    get_bookings_for_charger supabase charger_id date
    = if failing supabase charger_id date then Raises APIError
      else Returns (map selected
                        (rows_of (bookings supabase) charger_id date)).
Proof. reflexivity. Qed.

Lemma get_bookings_after_create_booking_eq :
  forall supabase user_id station_id charger_id date start_time duration
         energy price charger_id' date',
    get_bookings_for_charger
      (create_booking supabase user_id station_id charger_id date
                      start_time duration energy price)
      charger_id' date'
    = if ((charger_id =? charger_id')%Z && String.eqb date date')%bool
      then (found <- get_bookings_for_charger supabase charger_id' date' ;;
            Returns (found ++ [(start_time, duration)]))
      else get_bookings_for_charger supabase charger_id' date'.
Proof.
  intros. rewrite !get_bookings_for_charger_unfold.
  unfold create_booking; simpl.
  rewrite rows_of_app, map_app. unfold rows_of at 2; simpl.
  destruct (failing supabase charger_id' date');
    destruct (charger_id =? charger_id')%Z;
    destruct (String.eqb date date'); simpl;
    rewrite ?app_nil_r; reflexivity.
Qed.

(** Whatever the inner loop returns is [is_free]: it says false at the first
    booking that meets the request. *)
Lemma scan_bookings_value :
  forall preferred_start preferred_end found free,
    scan_bookings preferred_start preferred_end found = Returns free ->
    free = is_free preferred_start preferred_end found.
Proof.
  intros ps pe found. induction found as [| b rest IH]; intros free H;
    simpl in H.
  - now injection H as <-.
  - apply bind_returns in H as (b_end & Hadd & H).
    apply datetime_add_returns in Hadd as [-> _].
    simpl. unfold blocks at 1, window; simpl.
    destruct (is_time_overlap ps pe _ _); simpl.
    + now injection H as <-.
    + now apply IH.
Qed.

(** The chargers of the store that are free for a window. *)
Lemma scan_chargers_returns :
  forall supabase date preferred_start preferred_end chargers available
         result,
    scan_chargers supabase date preferred_start preferred_end
                  available chargers = Returns result ->
    result
    = available ++
      filter (fun c => is_free preferred_start preferred_end
                               (map selected
                                    (rows_of (bookings supabase)
                                             (Charger.id c) date)))
             chargers.
Proof.
  intros supabase date ps pe chargers.
  induction chargers as [| c rest IH]; intros available result H;
    simpl in H.
  - injection H as <-. now rewrite app_nil_r.
  - apply bind_returns in H as (found & Hget & H).
    apply bind_returns in H as (free & Hfree & H).
    apply get_bookings_for_charger_rows in Hget as ->.
    apply scan_bookings_value in Hfree as ->.
    apply IH in H as ->. simpl.
    destruct (is_free ps pe _); [now rewrite <- app_assoc | reflexivity].
Qed.

Lemma filter_available_chargers_returns :
  forall supabase chargers date start_time duration available,
    filter_available_chargers supabase chargers date start_time duration
    = Returns available ->
    available
    = filter (fun c => is_free (strptime start_time)
                               (strptime start_time + timedelta duration)
                               (map selected
                                    (rows_of (bookings supabase)
                                             (Charger.id c) date)))
             chargers.
Proof.
  intros supabase chargers date start_time duration available H.
  unfold filter_available_chargers, preferred_window in H.
  apply bind_returns in H as (w & Hw & H).
  apply bind_returns in Hw as (preferred_end & Hadd & Hw).
  injection Hw as <-. simpl in H.
  apply datetime_add_returns in Hadd as [-> _].
  now apply scan_chargers_returns in H.
Qed.

(** X3: whatever its status, a stored booking of a charger on the date that
    meets the requested window keeps the charger out of the result: the
    lookup does not read the status column. *)
Theorem filter_available_chargers_any_status :
  forall supabase chargers date start_time duration available c b,
    filter_available_chargers supabase chargers date start_time duration
    = Returns available ->
    In b (bookings supabase) ->
    Booking.charger_id b = Charger.id c ->
    Booking.date b = date ->
    is_time_overlap (strptime start_time)
                    (strptime start_time + timedelta duration)
                    (fst (window (selected b))) (snd (window (selected b)))
    = true ->
    ~ In c available.
Proof.
  intros supabase chargers date start_time duration available c b
         Hfilter Hb Hid Hdate Hmeet Hin.
  apply filter_available_chargers_returns in Hfilter. subst available.
  apply filter_In in Hin as [_ Hfree].
  rewrite is_free_spec in Hfree.
  rewrite (Hfree (selected b)) in Hmeet; [discriminate|].
  apply in_map. unfold rows_of. apply filter_In. split; [exact Hb|].
  rewrite Hid, Hdate, Z.eqb_refl, String.eqb_refl. reflexivity.
Qed.

Lemma scan_chargers_ext :
  forall supabase supabase' date preferred_start preferred_end chargers
         available,
    (forall c, In c chargers ->
               get_bookings_for_charger supabase (Charger.id c) date
               = get_bookings_for_charger supabase' (Charger.id c) date) ->
    scan_chargers supabase date preferred_start preferred_end
                  available chargers
    = scan_chargers supabase' date preferred_start preferred_end
                    available chargers.
Proof.
  intros supabase supabase' date ps pe chargers.
  induction chargers as [| c rest IH]; intros available Hget; simpl;
    [reflexivity|].
  rewrite (Hget c (or_introl eq_refl)).
  destruct (get_bookings_for_charger supabase' (Charger.id c) date)
    as [found | e]; simpl; [|reflexivity].
  destruct (scan_bookings ps pe found) as [free | e]; simpl; [|reflexivity].
  apply IH. intros c' Hc'. apply Hget. now right.
Qed.

(** X4: a booking committed for another date, or for a charger that is not
    among those filtered, leaves the outcome of the filter as it was. *)
Theorem filter_available_chargers_frame :
  forall supabase chargers date start_time duration
         user_id station_id charger_id date' start_time' duration'
         energy price,
    date' <> date \/ ~ In charger_id (map Charger.id chargers) ->
    filter_available_chargers
      (create_booking supabase user_id station_id charger_id date'
                      start_time' duration' energy price)
      chargers date start_time duration
    = filter_available_chargers supabase chargers date start_time duration.
Proof.
  intros supabase chargers date start_time duration user_id station_id
         charger_id date' start_time' duration' energy price Hother.
  unfold filter_available_chargers.
  destruct (preferred_window start_time duration) as [w | e]; simpl;
    [|reflexivity].
  apply scan_chargers_ext. intros c Hc.
  rewrite get_bookings_after_create_booking_eq.
  destruct (charger_id =? Charger.id c)%Z eqn:Hid; [|reflexivity].
  destruct (String.eqb date' date) eqn:Hdate; [|reflexivity].
  apply Z.eqb_eq in Hid. apply String.eqb_eq in Hdate.
  destruct Hother as [Hd | Hc']; [contradiction|].
  exfalso. apply Hc'. rewrite Hid. now apply in_map.
Qed.

(** X5: once a booking of positive length is committed, the filter run
    again for the same date, start and duration returns no charger with the
    booked id. *)
Theorem filter_available_chargers_after_create_booking :
  forall supabase chargers date start_time duration user_id station_id
         energy price available c c',
    (0 < timedelta duration)%Z ->
    filter_available_chargers
      (create_booking supabase user_id station_id (Charger.id c) date
                      start_time duration energy price)
      chargers date start_time duration
    = Returns available ->
    Charger.id c' = Charger.id c ->
    ~ In c' available.
Proof.
  intros supabase chargers date start_time duration user_id station_id
         energy price available c c' Hpos Hfilter Hid Hin.
  apply filter_available_chargers_returns in Hfilter. subst available.
  apply filter_In in Hin as [_ Hfree].
  rewrite is_free_spec in Hfree.
  specialize (Hfree (start_time, duration)).
  unfold window in Hfree; simpl in Hfree.
  assert (Hself : is_time_overlap
                    (strptime start_time)
                    (strptime start_time + timedelta duration)
                    (strptime start_time)
                    (strptime start_time + timedelta duration) = true).
  { unfold is_time_overlap.
    rewrite andb_true_iff, Z.gtb_ltb, Z.ltb_lt. lia. }
  rewrite Hfree in Hself; [discriminate|].
  rewrite rows_of_app, map_app. apply in_or_app. right.
  unfold rows_of; simpl.
  rewrite Hid, Z.eqb_refl, String.eqb_refl. simpl. now left.
Qed.

Lemma ForallOrdPairs_snoc_inv :
  forall (A : Type) (R : A -> A -> Prop) (l : list A) (x : A),
    ForallOrdPairs R (l ++ [x]) ->
    ForallOrdPairs R l /\ Forall (fun y => R y x) l.
Proof.
  intros A R l x. induction l as [| a l IH]; simpl; intros H.
  - split; constructor.
  - inversion H as [| ? ? Ha Hl]; subst.
    apply Forall_app in Ha as [Ha Hax].
    destruct (IH Hl) as [Hl' Hlx].
    split; [now constructor|].
    constructor; [now inversion Hax | exact Hlx].
Qed.

(** X6: on a store that keeps the invariant, [create_booking] keeps it
    exactly when no confirmed booking of the same charger and date meets the
    new window. *)
Theorem create_booking_no_double_booking_iff :
  forall supabase user_id station_id charger_id date start_time duration
         energy price,
    no_double_booking (bookings supabase) ->
    (no_double_booking
       (bookings (create_booking supabase user_id station_id charger_id
                                 date start_time duration energy price))
     <->
     forall b,
       In b (bookings supabase) ->
       confirmed b = true ->
       Booking.charger_id b = charger_id ->
       Booking.date b = date ->
       is_time_overlap
         (fst (window (selected b))) (snd (window (selected b)))
         (strptime start_time) (strptime start_time + timedelta duration)
       = false).
Proof.
  intros supabase user_id station_id charger_id date start_time duration
         energy price Hinv.
  unfold no_double_booking, create_booking; simpl. split.
  - intros H b Hb Hconf Hid Hdate.
    apply ForallOrdPairs_snoc_inv in H as [_ H].
    rewrite Forall_forall in H.
    specialize (H b Hb Hconf eq_refl). unfold clash in H; simpl in H.
    now rewrite Hid, Hdate, Z.eqb_refl, String.eqb_refl in H.
  - intros H. apply ForallOrdPairs_snoc; [exact Hinv|].
    apply Forall_forall. intros b Hb Hconf _.
    unfold clash; simpl.
    destruct (Booking.charger_id b =? charger_id)%Z eqn:Hid;
      [|reflexivity].
    destruct (String.eqb (Booking.date b) date) eqn:Hdate; [|reflexivity].
    apply Z.eqb_eq in Hid. apply String.eqb_eq in Hdate.
    simpl. now apply H.
Qed.

(** X7: the inner loop stops at the first booking that meets the request:
    with the bookings before it representable and clear of the request, the
    charger is left out whatever bookings follow, even ones whose end is not
    a representable datetime. *)
Theorem scan_bookings_stops_at_first_overlap :
  forall preferred_start preferred_end before b after,
    Forall (fun b' => representable (snd (window b'))) before ->
    is_free preferred_start preferred_end before = true ->
    representable (snd (window b)) ->
    blocks preferred_start preferred_end b = true ->
    scan_bookings preferred_start preferred_end (before ++ b :: after)
    = Returns false.
Proof.
  intros ps pe before b after Hrep.
  induction Hrep as [| b0 rest Hb0 _ IH]; simpl; intros Hfree Hb Hblocks.
  - unfold window in Hb; simpl in Hb.
    rewrite (datetime_add_representable _ _ Hb); simpl.
    unfold blocks, window in Hblocks; simpl in Hblocks.
    now rewrite Hblocks.
  - apply andb_true_iff in Hfree as [Hfree0 Hfree].
    unfold window in Hb0; simpl in Hb0.
    rewrite (datetime_add_representable _ _ Hb0); simpl.
    apply negb_true_iff in Hfree0.
    unfold blocks, window in Hfree0; simpl in Hfree0.
    rewrite Hfree0. now apply IH.
Qed.

(** ** Durations *)

Lemma round_half_even_bounds :
  forall x : Q,
    (Qfloor x <= round_half_even x <= Qfloor x + 1)%Z.
Proof.
  intros x. unfold round_half_even.
  destruct (_ ?= _)%Q; [destruct (Z.even (Qfloor x))| |]; lia.
Qed.

Lemma round_half_even_le :
  forall x y : Q, (x <= y)%Q -> (round_half_even x <= round_half_even y)%Z.
Proof.
  intros x y Hxy.
  pose proof (Qfloor_resp_le x y Hxy) as Hfloor.
  destruct (Z.eq_dec (Qfloor x) (Qfloor y)) as [Heq | Hne].
  - unfold round_half_even. rewrite <- Heq.
    assert (Hfrac : (x - inject_Z (Qfloor x) <= y - inject_Z (Qfloor x))%Q).
    { unfold Qminus. now apply Qplus_le_l. }
    destruct (Qcompare_spec (x - inject_Z (Qfloor x)) (1 # 2)) as [Hx | Hx | Hx];
      destruct (Qcompare_spec (y - inject_Z (Qfloor x)) (1 # 2)) as [Hy | Hy | Hy];
      try (destruct (Z.even (Qfloor x))); try lia;
      exfalso; apply (Qle_not_lt _ _ Hfrac);
      first [ rewrite Hx; exact Hy
            | rewrite Hy; exact Hx
            | now apply Qlt_trans with (1 # 2) ].
  - pose proof (round_half_even_bounds x). pose proof (round_half_even_bounds y).
    lia.
Qed.

Lemma timedelta_le :
  forall d1 d2 : Q, (d1 <= d2)%Q -> (timedelta d1 <= timedelta d2)%Z.
Proof.
  intros d1 d2 H. unfold timedelta. apply round_half_even_le.
  apply Qmult_le_compat_r; [exact H | discriminate].
Qed.

Lemma is_free_shorter :
  forall preferred_start end1 end2 found,
    (end1 <= end2)%Z ->
    is_free preferred_start end2 found = true ->
    is_free preferred_start end1 found = true.
Proof.
  intros ps end1 end2 found Hle. rewrite !is_free_spec.
  intros H b Hb. specialize (H b Hb). revert H.
  unfold is_time_overlap.
  rewrite !andb_false_iff, !Z.gtb_ltb, !Z.ltb_ge. lia.
Qed.

(** X8: shortening the request never loses a charger: with the same date and
    start, every charger returned for a duration is returned for any
    duration that is not longer, whenever both calls return. *)
Theorem filter_available_chargers_shorter :
  forall supabase chargers date start_time duration1 duration2
         available1 available2 c,
    (duration1 <= duration2)%Q ->
    filter_available_chargers supabase chargers date start_time duration1
    = Returns available1 ->
    filter_available_chargers supabase chargers date start_time duration2
    = Returns available2 ->
    In c available2 ->
    In c available1.
Proof.
  intros supabase chargers date start_time duration1 duration2
         available1 available2 c Hle H1 H2 Hin.
  apply filter_available_chargers_returns in H1.
  apply filter_available_chargers_returns in H2. subst.
  apply filter_In in Hin as [Hc Hfree]. apply filter_In. split; [exact Hc|].
  apply is_free_shorter with (2 := Hfree).
  pose proof (timedelta_le _ _ Hle). lia.
Qed.

Lemma moderate_representable :
  forall (t : Z) (d : Q),
    time_of_day t -> moderate d ->
    representable (strptime t + timedelta d).
Proof.
  intros t d Ht [Hlo Hhi].
  apply timedelta_le in Hlo. apply timedelta_le in Hhi.
  change (timedelta (inject_Z (-16646280)))
    with (-59926608000000000)%Z in Hlo.
  change (timedelta (inject_Z 71003112)) with 255611203200000000%Z in Hhi.
  unfold representable, datetime_min, datetime_max, strptime, time_of_day in *.
  lia.
Qed.

(** X9: with times of day, durations between -16646280 and 71003112 hours
    and no failing lookup, the filter raises nothing: it returns the
    chargers, in the order given, that are free on the store. *)
Theorem filter_available_chargers_total :
  forall supabase chargers date start_time duration,
    time_of_day start_time ->
    moderate duration ->
    Forall (fun b => time_of_day (Booking.start_time b)
                     /\ moderate (Booking.duration_hours b))
           (bookings supabase) ->
    (forall c, In c chargers ->
               failing supabase (Charger.id c) date = false) ->
    filter_available_chargers supabase chargers date start_time duration
    = Returns
        (filter (fun c => is_free (strptime start_time)
                                  (strptime start_time + timedelta duration)
                                  (map selected
                                       (rows_of (bookings supabase)
                                                (Charger.id c) date)))
                chargers).
Proof.
  intros supabase chargers date start_time duration Hstart Hdur Hrows Hok.
  unfold filter_available_chargers, preferred_window.
  rewrite (datetime_add_representable _ _
             (moderate_representable _ _ Hstart Hdur)).
  simpl.
  apply scan_chargers_filter
    with (existing := fun c => map selected
                                   (rows_of (bookings supabase)
                                            (Charger.id c) date)).
  - intros c Hc. rewrite get_bookings_for_charger_unfold.
    now rewrite (Hok c Hc).
  - intros c b _ Hb. apply in_map_iff in Hb as (row & <- & Hrow).
    apply filter_In in Hrow as [Hrow _].
    rewrite Forall_forall in Hrows. destruct (Hrows row Hrow) as [Ht Hd].
    now apply moderate_representable.
Qed.

(** ** The booking steps of [main] *)

Lemma station_chargers_In :
  forall chargers station c,
    In c (station_chargers chargers station) <->
    In c chargers /\ Charger.station_id c = Station.id station.
Proof.
  intros chargers station c. unfold station_chargers.
  now rewrite filter_In, Z.eqb_eq.
Qed.

(** X10: every charger [main] offers belongs to the chosen station, and
    confirming one of them stores a confirmed booking that carries the
    charger's own station, the price energy times its price per kWh, and
    keeps the confirmed bookings of every charger and date disjoint. *)
Theorem confirm_booking_of_offered_charger :
  forall supabase chargers station date start_time duration available
         charger user_id energy,
    available_at_station supabase chargers station date start_time duration
    = Returns available ->
    In charger available ->
    (In charger chargers /\
     Charger.station_id charger = Station.id station) /\
    bookings (confirm_booking supabase user_id station charger date
                              start_time duration energy)
    = bookings supabase ++
      [ Booking.Build user_id (Charger.station_id charger)
                      (Charger.id charger) date start_time duration energy
                      (energy * Charger.price_per_kwh charger)
                      "confirmed" "pending" ] /\
    (no_double_booking (bookings supabase) ->
     no_double_booking
       (bookings (confirm_booking supabase user_id station charger date
                                  start_time duration energy))).
Proof.
  intros supabase chargers station date start_time duration available
         charger user_id energy Havail Hin.
  unfold available_at_station in Havail.
  destruct (filter_available_chargers_sound _ _ _ _ _ _ _ Havail Hin)
    as [Hstation _].
  apply station_chargers_In in Hstation as [Hc Hst].
  split; [now split|]. split.
  - unfold confirm_booking, create_booking; simpl. now rewrite Hst.
  - intros Hinv. unfold confirm_booking.
    now apply create_booking_after_filter
      with (chargers := station_chargers chargers station)
           (available := available).
Qed.

(** ** Finding a breakpoint on the route *)

Lemma find_index_from_spec :
  forall (coords : list Coord) (target : Coord) (i : nat),
    match find_index_from i coords target with
    | Some k =>
        (i <= k)%nat /\
        (exists p, nth_error coords (k - i) = Some p
                   /\ matches p target = true) /\
        (forall j q, (j < k - i)%nat -> nth_error coords j = Some q ->
                     matches q target = false)
    | None => forall p, In p coords -> matches p target = false
    end.
Proof.
  induction coords as [| p rest IH]; intros target i; simpl.
  - intros p [].
  - destruct (matches p target) eqn:Hp.
    + rewrite Nat.sub_diag. split; [lia|]. split.
      * exists p. now split.
      * intros j q Hj. lia.
    + specialize (IH target (S i)).
      destruct (find_index_from (S i) rest target) as [k |].
      * destruct IH as (Hle & (q & Hq & Hmatch) & Hfirst).
        replace (k - i)%nat with (S (k - S i)) by lia.
        split; [lia|]. split.
        -- exists q. now split.
        -- intros j q' Hj Hq'. destruct j as [| j]; simpl in Hq'.
           ++ now injection Hq' as <-.
           ++ apply (Hfirst j q'); [lia | exact Hq'].
      * intros q [<- | Hq]; [exact Hp | now apply IH].
Qed.

Lemma find_index_spec :
  forall (coords : list Coord) (target : Coord),
    match find_index coords (Some target) with
    | Some k =>
        (k < List.length coords)%nat /\
        (exists p, nth_error coords k = Some p
                   /\ matches p target = true) /\
        (forall j q, (j < k)%nat -> nth_error coords j = Some q ->
                     matches q target = false)
    | None => forall p, In p coords -> matches p target = false
    end.
Proof.
  intros coords target. simpl.
  pose proof (find_index_from_spec coords target 0) as H.
  destruct (find_index_from 0 coords target) as [k |] eqn:Hk; [|exact H].
  rewrite Nat.sub_0_r in H. destruct H as (_ & Hmatch & Hfirst).
  split; [|now split].
  destruct Hmatch as (p & Hp & _).
  apply nth_error_Some. now rewrite Hp.
Qed.

(** X11: [find_index] returns the index of the first route point within the
    tolerance of the breakpoint, an index of the route, and returns [None]
    only when no route point is within the tolerance. *)
Theorem find_index_first_match :
  forall (coords : list Coord) (target : Coord),
    (forall k,
        find_index coords (Some target) = Some k ->
        (k < List.length coords)%nat /\
        (exists p, nth_error coords k = Some p
                   /\ matches p target = true) /\
        (forall j q, (j < k)%nat -> nth_error coords j = Some q ->
                     matches q target = false)) /\
    (find_index coords (Some target) = None <->
     forall p, In p coords -> matches p target = false).
Proof.
  intros coords target.
  pose proof (find_index_spec coords target) as H.
  destruct (find_index coords (Some target)) as [k |]; split.
  - intros k' [= <-]. exact H.
  - split; [discriminate|]. intros Hnone.
    destruct H as (_ & (p & Hp & Hmatch) & _).
    apply nth_error_In in Hp. rewrite (Hnone p Hp) in Hmatch. discriminate.
  - discriminate.
  - split; [intros _; exact H | reflexivity].
Qed.

Lemma matches_refl : forall p : Coord, matches p p = true.
Proof.
  intros p. unfold matches, Qlt_bool.
  assert (Hzero : forall x : Q, Qle_bool (1 # 1000000) (Qabs (x - x)) = false).
  { intros x. apply not_true_is_false. rewrite Qle_bool_iff.
    apply Qlt_not_le.
    assert (Hx : (x - x == 0)%Q) by ring.
    rewrite Hx. reflexivity. }
  now rewrite !Hzero.
Qed.

(** X12: a breakpoint that is itself a point of the route is always found,
    at its own position or at an earlier point within the tolerance; the
    proportional fallback is not used for it. *)
Theorem find_index_route_point :
  forall (coords : list Coord) (p : Coord) (k : nat),
    nth_error coords k = Some p ->
    exists j,
      find_index coords (Some p) = Some j /\ (j <= k)%nat /\
      fallback (find_index coords (Some p)) (Some p) 3
               (map (fun q => (lat q, lon q)) coords) = Some j.
Proof.
  intros coords p k Hk.
  pose proof (find_index_spec coords p) as H.
  pose proof (matches_refl p) as Hp.
  destruct (find_index coords (Some p)) as [j |] eqn:Hj.
  - exists j. split; [reflexivity|]. split; [|reflexivity].
    destruct H as (_ & _ & Hfirst).
    destruct (le_lt_dec j k) as [Hle | Hlt]; [exact Hle|].
    pose proof (Hfirst k p Hlt Hk). congruence.
  - apply nth_error_In in Hk. pose proof (H p Hk). congruence.
Qed.

(** ** The layers [draw_route] adds *)




(** X14: on a route that has points, when the three breakpoints are
    supplied and none is found on it, the route is cut at three and at six
    tenths of its length, and the three polylines joined at their shared
    points give the route back. *)
Theorem draw_route_fallback :
  forall (coords : list Coord) (g o r : Coord),
    coords <> [] ->
    find_index coords (Some g) = None ->
    find_index coords (Some o) = None ->
    find_index coords (Some r) = None ->
    let latlngs := map (fun p => (lat p, lon p)) coords in
    let gi := (List.length coords * 3 / 10)%nat in
    let oi := (List.length coords * 6 / 10)%nat in
    draw_route [] coords (Some g) (Some o) (Some r)
    = ([ {| locations := firstn (gi + 1) latlngs; color := green |};
         {| locations := slice gi (oi + 1) latlngs; color := orange |};
         {| locations := skipn oi latlngs; color := red |} ],
       Returns tt) /\
    stitch [ firstn (gi + 1) latlngs; slice gi (oi + 1) latlngs;
             skipn oi latlngs ]
    = latlngs.
Proof.
  intros coords g o r Hcoords Hg Ho Hr latlngs gi oi.
  assert (Hle : (gi <= oi)%nat).
  { unfold gi, oi. apply Nat.Div0.div_le_mono. lia. }
  assert (Hlt : (oi < List.length coords)%nat).
  { unfold oi. apply nonempty_length in Hcoords.
    apply Nat.Div0.div_lt_upper_bound. nia. }
  assert (Hlen : List.length latlngs = List.length coords)
    by apply length_map.
  split; [|now apply stitch_three].
  apply (draw_route_green_orange [] coords g o (Some r) gi oi);
    [| | exact Hle | exact Hlt].
  - rewrite Hg. unfold fallback, proportional. fold latlngs.
    now rewrite Hlen.
  - rewrite Ho. unfold fallback, proportional. fold latlngs.
    now rewrite Hlen.
Qed.

(** X15: on an empty route [draw_route] raises ValueError at the first
    polyline it tries, whatever breakpoints are supplied, and leaves the map
    as it was. *)
Theorem draw_route_empty_route :
  forall (m : Map) (g o r : option Coord),
    draw_route m [] g o r = (m, Raises ValueError).
Proof.
  intros m [g |] [o |] r; reflexivity.
Qed.

(** ** What [haversine] computes *)

Lemma haversine_unfold :
  forall lat1 lon1 lat2 lon2 : R,
    haversine lat1 lon1 lat2 lon2
    = if Rlt_dec (haversine_term lat1 lon1 lat2 lon2) 0
      then Raises ValueError
      else if Req_dec_T (haversine_term lat1 lon1 lat2 lon2) 0
           then Raises ZeroDivisionError
           else Returns
                  (6371 * 2
                   * atan2 (sqrt (haversine_term lat1 lon1 lat2 lon2))
                           (sqrt (1 / haversine_term lat1 lon1 lat2 lon2)))%R.
Proof. reflexivity. Qed.

Lemma haversine_term_sym :
  forall lat1 lon1 lat2 lon2 : R,
    haversine_term lat1 lon1 lat2 lon2 = haversine_term lat2 lon2 lat1 lon1.
Proof.
  intros lat1 lon1 lat2 lon2. unfold haversine_term, radians.
  replace ((lat1 - lat2) * PI / 180 / 2)%R
    with (- ((lat2 - lat1) * PI / 180 / 2))%R by field.
  replace ((lon1 - lon2) * PI / 180 / 2)%R
    with (- ((lon2 - lon1) * PI / 180 / 2))%R by field.
  rewrite !sin_neg, <- !Rsqr_neg. ring.
Qed.

(** X16: [haversine] gives the same outcome, value or exception, whichever
    of the two points comes first. *)
Theorem haversine_symmetric :
  forall lat1 lon1 lat2 lon2 : R,
    haversine lat1 lon1 lat2 lon2 = haversine lat2 lon2 lat1 lon1.
Proof.
  intros lat1 lon1 lat2 lon2.
  rewrite !haversine_unfold, (haversine_term_sym lat1 lon1 lat2 lon2).
  reflexivity.
Qed.

(** ** When the station loop raises *)

Lemma scan_stations_raises :
  forall (rz : Coord) (s : Station.t) (stations nearby : list Station.t),
    In s stations ->
    (Station.latitude s == lat rz)%Q ->
    (Station.longitude s == lon rz)%Q ->
    exists e, scan_stations rz nearby stations = Raises e.
Proof.
  intros rz s stations.
  induction stations as [| s0 rest IH]; intros nearby Hin Hlat Hlon;
    [contradiction|].
  simpl.
  destruct (haversine (Q2R (lat rz)) (Q2R (lon rz))
                      (Q2R (Station.latitude s0))
                      (Q2R (Station.longitude s0))) as [d | e] eqn:Hd;
    simpl; [|now exists e].
  destruct Hin as [-> | Hin]; [|now apply IH].
  rewrite (Qeq_eqR _ _ Hlat), (Qeq_eqR _ _ Hlon) in Hd.
  rewrite haversine_same_point_raises in Hd. discriminate.
Qed.

(** X18: a station whose coordinates are those of the reference point makes
    the station loop raise, wherever in the list it stands: no list of
    stations is returned. *)
Theorem nearby_stations_raises :
  forall (rz : Coord) (s : Station.t) (stations : list Station.t),
    In s stations ->
    (Station.latitude s == lat rz)%Q ->
    (Station.longitude s == lon rz)%Q ->
    exists e, nearby_stations (Some rz) stations = Raises e.
Proof.
  intros rz s stations Hin Hlat Hlon. unfold nearby_stations.
  now apply scan_stations_raises with s.
Qed.

(** ** Windows as intervals *)

(** X19: for two windows that each end after they start, the overlap test
    says true exactly when some instant lies in both, the start of a window
    counted in and its end counted out. *)
Theorem is_time_overlap_common_instant :
  forall start1 end1 start2 end2 : Z,
    (start1 < end1)%Z ->
    (start2 < end2)%Z ->
    (is_time_overlap start1 end1 start2 end2 = true <->
     exists t : Z, (start1 <= t < end1)%Z /\ (start2 <= t < end2)%Z).
Proof.
  intros start1 end1 start2 end2 H1 H2. unfold is_time_overlap.
  rewrite andb_true_iff, Z.gtb_ltb, !Z.ltb_lt. split.
  - intros [Ha Hb]. exists (Z.max start1 start2). lia.
  - intros (t & Ht1 & Ht2). lia.
Qed.

(** * The further properties on the scenarios *)

(** The cancelled booking of C1 keeps C1 out for 11:00, one hour. *)
Lemma filter_available_chargers_any_status_witness :
  filter_available_chargers cancelled [C1; C2] day (HM 11 0) 1
  = Returns [C2] /\ ~ In C1 [C2].
Proof.
  split; [reflexivity|].
  apply (filter_available_chargers_any_status
           cancelled [C1; C2] day (HM 11 0) 1 [C2] C1
           (Booking.Build "driver-a" 1 1 day (HMS 10 0 0) 2 20 6
                          "cancelled" "pending")).
  - reflexivity.
  - now left.
  - reflexivity.
  - reflexivity.
  - reflexivity.
Defined.

(** A booking of C2 on the next day does not change the filter for [day]. *)
Lemma filter_available_chargers_frame_witness :
  filter_available_chargers
    (create_booking morning "driver-b" 1 2 "2025-06-02" (HM 11 0) 1 10
                    (5 # 2))
    [C1; C2] day (HM 11 0) 1
  = filter_available_chargers morning [C1; C2] day (HM 11 0) 1.
Proof.
  apply (filter_available_chargers_frame
           morning [C1; C2] day (HM 11 0) 1 "driver-b" 1 2 "2025-06-02"
           (HM 11 0) 1 10 (5 # 2)).
  left. discriminate.
Defined.

(** After C2 is booked at 11:00 for one hour it is not returned for that
    request. *)
Lemma filter_available_chargers_after_create_booking_witness :
  ~ In C2 [C1].
Proof.
  apply (filter_available_chargers_after_create_booking
           no_bookings [C1; C2] day (HM 11 0) 1 "driver-a" 1 10 (5 # 2)
           [C1] C2 C2).
  - reflexivity.
  - reflexivity.
  - reflexivity.
Defined.

(** On [morning], where C1 is booked from 10:00 to 12:00: a booking of C1
    from 12:00 is weighed against that booking, and so is one from 11:00. *)
Lemma create_booking_no_double_booking_iff_witness :
  (no_double_booking (bookings after_noon) <->
   forall b,
     In b (bookings morning) ->
     confirmed b = true ->
     Booking.charger_id b = 1%Z ->
     Booking.date b = day ->
     is_time_overlap
       (fst (window (selected b))) (snd (window (selected b)))
       (strptime (HM 12 0)) (strptime (HM 12 0) + timedelta 1)
     = false) /\
  (no_double_booking
     (bookings (create_booking morning "driver-b" 1 1 day (HM 11 0) 1 10 3))
   <->
   forall b,
     In b (bookings morning) ->
     confirmed b = true ->
     Booking.charger_id b = 1%Z ->
     Booking.date b = day ->
     is_time_overlap
       (fst (window (selected b))) (snd (window (selected b)))
       (strptime (HM 11 0)) (strptime (HM 11 0) + timedelta 1)
     = false).
Proof.
  split.
  - apply (create_booking_no_double_booking_iff
             morning "driver-b" 1 1 day (HM 12 0) 1 10 3).
    repeat constructor.
  - apply (create_booking_no_double_booking_iff
             morning "driver-b" 1 1 day (HM 11 0) 1 10 3).
    repeat constructor.
Defined.

(** The booking from 10:00 to 12:00 meets 11:00 to 12:00; the one that
    follows it, which ends after the year 9999, is not looked at. *)
Lemma scan_bookings_stops_at_first_overlap_witness :
  scan_bookings (strptime (HM 11 0)) (strptime (HM 12 0))
                ([] ++ (HMS 10 0 0, 2%Q) :: [endless])
  = Returns false /\
  scan_bookings (strptime (HM 11 0)) (strptime (HM 12 0)) [endless]
  = Raises OverflowError.
Proof.
  split; [|reflexivity].
  apply (scan_bookings_stops_at_first_overlap
           (strptime (HM 11 0)) (strptime (HM 12 0)) []
           (HMS 10 0 0, 2%Q) [endless]).
  - constructor.
  - reflexivity.
  - split; vm_compute; discriminate.
  - reflexivity.
Defined.

(** C1, free from 9:00 for an hour, is free from 9:00 for half an hour. *)
Lemma filter_available_chargers_shorter_witness :
  In C1 [C1; C2].
Proof.
  apply (filter_available_chargers_shorter
           morning [C1; C2] day (HM 9 0) (1 # 2) 1 [C1; C2] [C1; C2] C1).
  - unfold Qle; simpl; lia.
  - reflexivity.
  - reflexivity.
  - now left.
Defined.

Lemma filter_available_chargers_total_witness :
  filter_available_chargers morning [C1; C2] day (HM 11 0) 1
  = Returns
      (filter (fun c => is_free (strptime (HM 11 0))
                                (strptime (HM 11 0) + timedelta 1)
                                (map selected
                                     (rows_of (bookings morning)
                                              (Charger.id c) day)))
              [C1; C2]).
Proof.
  apply (filter_available_chargers_total morning [C1; C2] day (HM 11 0) 1).
  - split; vm_compute; [discriminate | reflexivity].
  - split; vm_compute; discriminate.
  - repeat constructor; vm_compute; first [discriminate | reflexivity].
  - reflexivity.
Defined.

(** Of C1, C2 and C3, station 1 offers C2 for 11:00, one hour. *)
Lemma confirm_booking_of_offered_charger_witness :
  (In C2 [C1; C2; C3] /\ Charger.station_id C2 = Station.id station1) /\
  bookings (confirm_booking morning "driver-b" station1 C2 day (HM 11 0) 1 10)
  = bookings morning ++
    [ Booking.Build "driver-b" (Charger.station_id C2) (Charger.id C2) day
                    (HM 11 0) 1 10 (10 * Charger.price_per_kwh C2)
                    "confirmed" "pending" ] /\
  (no_double_booking (bookings morning) ->
   no_double_booking
     (bookings (confirm_booking morning "driver-b" station1 C2 day
                                (HM 11 0) 1 10))).
Proof.
  apply (confirm_booking_of_offered_charger
           morning [C1; C2; C3] station1 day (HM 11 0) 1 [C2] C2
           "driver-b" 10).
  - reflexivity.
  - now left.
Defined.

(** The fourth point of the route, given as a breakpoint, is found. *)
Lemma find_index_route_point_witness :
  exists j,
    find_index route10 (Some (point 3)) = Some j /\ (j <= 3)%nat /\
    fallback (find_index route10 (Some (point 3))) (Some (point 3)) 3
             (map (fun q => (lat q, lon q)) route10) = Some j.
Proof.
  apply (find_index_route_point route10 (point 3) 3). reflexivity.
Defined.

(** Breakpoints off the route: ten points are cut at indices 3 and 6. *)
Lemma draw_route_fallback_witness :
  draw_route [] route10 (Some (point 100)) (Some (point 200))
             (Some (point 300))
  = ([ {| locations := firstn 4 (map (fun p => (lat p, lon p)) route10);
          color := green |};
       {| locations := slice 3 7 (map (fun p => (lat p, lon p)) route10);
          color := orange |};
       {| locations := skipn 6 (map (fun p => (lat p, lon p)) route10);
          color := red |} ],
     Returns tt) /\
  stitch [ firstn 4 (map (fun p => (lat p, lon p)) route10);
           slice 3 7 (map (fun p => (lat p, lon p)) route10);
           skipn 6 (map (fun p => (lat p, lon p)) route10) ]
  = map (fun p => (lat p, lon p)) route10.
Proof.
  apply (draw_route_fallback route10 (point 100) (point 200) (point 300));
    [discriminate | reflexivity | reflexivity | reflexivity].
Defined.

(** 10:00 to 12:00 and 11:00 to 12:00 share the instant 11:00. *)
Lemma is_time_overlap_common_instant_witness :
  is_time_overlap (strptime (HM 10 0)) (strptime (HM 12 0))
                  (strptime (HM 11 0)) (strptime (HM 12 0)) = true <->
  exists t : Z,
    (strptime (HM 10 0) <= t < strptime (HM 12 0))%Z /\
    (strptime (HM 11 0) <= t < strptime (HM 12 0))%Z.
Proof.
  apply (is_time_overlap_common_instant
           (strptime (HM 10 0)) (strptime (HM 12 0))
           (strptime (HM 11 0)) (strptime (HM 12 0)));
    reflexivity.
Defined.

(** The station on the origin, after the near one, makes the loop raise. *)
Lemma nearby_stations_raises_witness :
  exists e,
    nearby_stations (Some origin) [station_near; station_here] = Raises e.
Proof.
  apply (nearby_stations_raises origin station_here
                                [station_near; station_here]).
  - right. now left.
  - reflexivity.
  - reflexivity.
Defined.
